(** * generate-icons.py: square WebExtension icons from one source image

    A shallow embedding of [src/sh/generate-icons.py] and the properties
    of its resize-and-pad transform and of its file-writing loop.

    Python [float] is IEEE 754 binary64; it is modelled with the Standard
    Library's [SpecFloat] (precision 53, [emax] 1024), so that
    [target_size / img.width], [img.width * ratio] and [int(...)] are
    evaluated bit for bit.  Python [int] is [Z].

    Pillow, the file system, the operating system and the console are
    not part of the repository; they are modelled from their documented
    behaviour, and what they decide on their own (pixel values of the
    filters, the image codec, permissions, the console's encoding) is a
    parameter of the development. *)

From Stdlib Require Import ZArith Lia Bool List Ascii String.
From Stdlib Require Import SpecFloat.
From Stdlib Require Import DecimalString.
From stdpp Require Import base gmap strings.

Local Open Scope Z_scope.

(** ** Exceptions and results *)

(** A raised Python exception: [SystemExit] carries the exit status, any
    other exception its class name and message. *)
Inductive exn : Type :=
  | SystemExit (code : Z)
  | PyErr (cls : string) (msg : string).

Inductive result (A : Type) : Type :=
  | Ok (a : A)
  | Raise (e : exn).
Arguments Ok {A} a.
Arguments Raise {A} e.

Definition rbind {A B} (r : result A) (k : A -> result B) : result B :=
  match r with
  | Ok a => k a
  | Raise e => Raise e
  end.

Declare Scope py_scope.
Delimit Scope py_scope with py.
Notation "'let?' x ':=' r 'in' k" :=
  (rbind r (fun x => k))
  (at level 10, x pattern, r at level 100, k at level 200) : py_scope.
Local Open Scope py_scope.

Definition succeeds {A} (r : result A) : bool :=
  match r with Ok _ => true | Raise _ => false end.

Definition raises_class {A} (c : string) (r : result A) : Prop :=
  exists msg, r = Raise (PyErr c msg).

(** ** Python numbers *)

Module Py.

Definition prec : Z := 53.
Definition emax : Z := 1024.

Definition float : Type := spec_float.

(** An [int] read as an unrounded binary number (exponent 0). *)
Definition exact (z : Z) : float :=
  match z with
  | Z0 => S754_zero false
  | Zpos p => S754_finite false p 0
  | Zneg p => S754_finite true p 0
  end.

(** [a / b] on two [int]s: the correctly rounded quotient;
    [ZeroDivisionError] on a zero divisor, [OverflowError] when the
    quotient is beyond the largest float. *)
Definition int_truediv (a b : Z) : result float :=
  if b =? 0 then Raise (PyErr "ZeroDivisionError" "division by zero")
  else
    match SFdiv prec emax (exact a) (exact b) with
    | S754_infinity _ | S754_nan =>
        Raise (PyErr "OverflowError"
                 "integer division result too large for a float")
    | q => Ok q
    end.

(** The conversion of the [int] operand of [int * float]. *)
Definition int_to_float (z : Z) : result float :=
  match binary_normalize prec emax z 0 false with
  | S754_infinity _ | S754_nan =>
      Raise (PyErr "OverflowError" "int too large to convert to float")
  | x => Ok x
  end.

Definition float_mul (x y : float) : float := SFmul prec emax x y.

Definition float_lt (x y : float) : bool := SFltb x y.

(** [min(a, b)]: the first argument unless the second is smaller. *)
Definition min (a b : float) : float := if float_lt b a then b else a.

(** [int(x)]: truncation toward zero. *)
Definition float_to_int (x : float) : result Z :=
  match x with
  | S754_zero _ => Ok 0
  | S754_finite s m e => Ok (cond_Zopp s (Z.shiftl (Zpos m) e))
  | S754_infinity _ =>
      Raise (PyErr "OverflowError" "cannot convert float infinity to integer")
  | S754_nan =>
      Raise (PyErr "ValueError" "cannot convert float NaN to integer")
  end.

(** [int(n * x)] for an [int] [n] and a [float] [x]. *)
Definition int_mul_trunc (n : Z) (x : float) : result Z :=
  let? f := int_to_float n in
  float_to_int (float_mul f x).

(** [str(n)] as an f-string prints it. *)
Definition str (n : Z) : string := NilZero.string_of_int (Z.to_int n).

End Py.

(** ** The scaled size (lines 36-38 of the script) *)

(** [ratio = min(target_size / img.width, target_size / img.height)] *)
Definition ratio (w h target_size : Z) : result Py.float :=
  let? rw := Py.int_truediv target_size w in
  let? rh := Py.int_truediv target_size h in
  Ok (Py.min rw rh).

(** [(new_width, new_height)] *)
Definition scaled_size (w h target_size : Z) : result (Z * Z) :=
  let? r := ratio w h target_size in
  let? new_width := Py.int_mul_trunc w r in
  let? new_height := Py.int_mul_trunc h r in
  Ok (new_width, new_height).

(** [x_offset], [y_offset] (lines 45-46); [//] is floor division. *)
Definition offset (target_size new_dim : Z) : Z := (target_size - new_dim) / 2.

(** ** Images (the part of Pillow the script calls)

    Pillow is not part of the repository.  Its calls are modelled from
    Pillow's documented behaviour: the sizes and error cases are concrete,
    the pixel values computed by mode conversion and by the Lanczos filter
    are parameters of the development. *)

Record pixel : Type := Pixel { red : Z; green : Z; blue : Z; alpha : Z }.

Definition transparent : pixel := Pixel 0 0 0 0.

Record image : Type := Image {
  mode : string;
  width : Z;
  height : Z;
  getpixel : Z -> Z -> pixel
}.

(** Image sizes cross into C as [int]. *)
Definition c_int (z : Z) : bool := (- 2 ^ 31 <=? z) && (z <? 2 ^ 31).

(** What the imaging library computes pixel by pixel. *)
Record filters : Type := Filters {
  (** the pixels of [im.convert(mode)] *)
  convert_pixels : string -> image -> Z -> Z -> pixel;
  (** the pixels of [im.resize((w, h), LANCZOS)] *)
  lanczos : image -> Z -> Z -> Z -> Z -> pixel
}.

Section Pillow.

Variable F : filters.

(** [im.convert(m)]: a copy when the mode is already [m]. *)
Definition convert (im : image) (m : string) : image :=
  if String.eqb (mode im) m then im
  else Image m (width im) (height im) (convert_pixels F m im).

(** [im.resize((w, h), Image.Resampling.LANCZOS)]: a copy when the size
    is unchanged; otherwise the core refuses a size below 1. *)
Definition resize (im : image) (sz : Z * Z) : result image :=
  let '(w, h) := sz in
  if (w =? width im) && (h =? height im) then Ok im
  else if negb (c_int w && c_int h) then
    Raise (PyErr "OverflowError" "Python int too large to convert to C int")
  else if (w <? 1) || (h <? 1) then
    Raise (PyErr "ValueError" "height and width must be > 0")
  else Ok (Image (mode im) w h (lanczos F im w h)).

(** [Image.new(m, (w, h), color)] *)
Definition new (m : string) (sz : Z * Z) (color : pixel) : result image :=
  let '(w, h) := sz in
  if (w <? 0) || (h <? 0) then
    Raise (PyErr "ValueError" "Width and height must be >= 0")
  else if negb (c_int w && c_int h) then
    Raise (PyErr "OverflowError" "Python int too large to convert to C int")
  else Ok (Image m w h (fun _ _ => color)).

(** Pillow's 8-bit blend: [(a + 128 + ((a + 128) >> 8)) >> 8] for
    [a = old * (255 - mask) + new * mask]. *)
Definition div255 (a : Z) : Z :=
  let tmp := a + 128 in Z.shiftr (Z.shiftr tmp 8 + tmp) 8.

Definition blend8 (mask old new : Z) : Z :=
  div255 (old * (255 - mask) + new * mask).

Definition blend (mask : Z) (old new : pixel) : pixel :=
  Pixel (blend8 mask (red old) (red new))
        (blend8 mask (green old) (green new))
        (blend8 mask (blue old) (blue new))
        (blend8 mask (alpha old) (alpha new)).

(** The footprint of a [w] by [h] image pasted at [(x0, y0)]. *)
Definition in_box (x0 y0 w h x y : Z) : bool :=
  (x0 <=? x) && (x <? x0 + w) && (y0 <=? y) && (y <? y0 + h).

(** [paste] converts the pasted image to the mode of the canvas, unless
    the canvas is RGB and the image carries an alpha band. *)
Definition paste_source (canvas im : image) : image :=
  if String.eqb (mode canvas) (mode im) then im
  else if String.eqb (mode canvas) "RGB"
          && (String.eqb (mode im) "LA" || String.eqb (mode im) "RGBA"
              || String.eqb (mode im) "RGBa") then im
  else convert im (mode canvas).

(** [canvas.paste(im, (x0, y0), mask)] with an RGBA mask: inside the
    footprint every band is blended through the mask's alpha band;
    outside it the canvas is untouched. *)
Definition paste (canvas im : image) (at_ : Z * Z) (mask : image)
  : result image :=
  let '(x0, y0) := at_ in
  if negb ((width mask =? width im) && (height mask =? height im)) then
    Raise (PyErr "ValueError" "images do not match")
  else
    let im := paste_source canvas im in
    Ok (Image (mode canvas) (width canvas) (height canvas)
          (fun x y =>
             if in_box x0 y0 (width im) (height im) x y then
               blend (alpha (getpixel mask (x - x0) (y - y0)))
                     (getpixel canvas x y)
                     (getpixel im (x - x0) (y - y0))
             else getpixel canvas x y)).

(** ** [resize_with_padding] *)

Definition resize_with_padding (img : image) (target_size : Z)
  : result image :=
  let img := convert img "RGBA" in
  let? new_size := scaled_size (width img) (height img) target_size in
  let new_width := fst new_size in
  let new_height := snd new_size in
  let? resized := resize img (new_width, new_height) in
  let? new_img := new "RGBA" (target_size, target_size) transparent in
  let x_offset := offset target_size new_width in
  let y_offset := offset target_size new_height in
  paste new_img resized (x_offset, y_offset) resized.

End Pillow.

Definition SIZES : list Z := [16; 32; 48; 64; 128; 256].

(** ** The file system and the console

    A path is the string the script holds, as the bytes the operating
    system sees; the file system maps a path to what is there.  Effects
    persist when an exception is raised, so a computation returns its
    result together with the world it leaves. *)

Inductive node : Type :=
  | File (content : string)
  | Dir.

Record world : Type := World {
  fs : gmap string node;
  stdout : list string
}.

Definition M (A : Type) : Type := world -> result A * world.

Definition ret {A} (a : A) : M A := fun w => (Ok a, w).

Definition raise {A} (e : exn) : M A := fun w => (Raise e, w).

Definition bind {A B} (m : M A) (k : A -> M B) : M B :=
  fun w =>
    match m w with
    | (Ok a, w') => k a w'
    | (Raise e, w') => (Raise e, w')
    end.

Definition lift {A} (r : result A) : M A := fun w => (r, w).

Notation "x <~ m ;; k" := (bind m (fun x => k))
  (at level 100, m at next level, right associativity) : py_scope.
Notation "m ;;; k" := (bind m (fun _ => k))
  (at level 100, right associativity) : py_scope.

(** ** The host

    What the script meets outside itself and cannot see in the file
    system: the operating system may refuse to open a file or to make a
    directory (permissions, a full disk), and the console may be unable
    to encode a line.  What the host refuses does not change during a
    run.  A console that cannot be written to at all (a closed pipe, a
    full disk) is outside the model. *)

(** The encoding of the console.  The three emoji of the script's
    messages came into Unicode together, and an encoding has all of them
    or none: a limited one (ASCII, Latin-1, cp1252) has none, and every
    line of the script that is not ASCII carries one.  A Unicode
    encoding is strict when it refuses the bytes of a path that are not
    text (the surrogate escapes of [sys.argv]), as UTF-8 does in a UTF-8
    locale; in the C locale it passes them through. *)
Inductive console : Type :=
  | Limited
  | Unicode (strict : bool).

Record host : Type := Host {
  (** the class of the error of opening a path for reading, if the
      system refuses it *)
  read_refused : string -> option string;
  (** the class of the error of opening a path for writing, if the
      system refuses it: [PermissionError] for a read-only file or
      directory, [OSError] for a full disk *)
  write_refused : string -> option string;
  (** the class of the error of making a directory, if the system
      refuses it *)
  mkdir_refused : string -> option string;
  stdout_encoding : console;
  (** the message of an exception of a class about a path or a line, as
      the interpreter words it *)
  describe : string -> string -> string
}.

(** An exception raised by the system or a library about a path. *)
Definition os_error (E : host) (cls subject : string) : exn :=
  PyErr cls (describe E cls subject).

Definition permits (refused : option string) : bool :=
  match refused with None => true | Some _ => false end.

(** *** Text

    A string holds the UTF-8 bytes of the Python [str]. *)

Fixpoint is_ascii (text : string) : bool :=
  match text with
  | EmptyString => true
  | String c rest => (N_of_ascii c <? 128)%N && is_ascii rest
  end.

(** Well-formed UTF-8 (the Unicode standard, table 3-7) as a state
    machine; the state tells which bytes may follow. *)
Inductive utf8_state : Type :=
  | Whole          (* between characters *)
  | Last           (* one continuation byte to go *)
  | Last2          (* two to go *)
  | Last2_E0       (* two to go; the next one in A0..BF *)
  | Last2_ED       (* two to go; the next one in 80..9F *)
  | Last3          (* three to go *)
  | Last3_F0       (* three to go; the next one in 90..BF *)
  | Last3_F4.      (* three to go; the next one in 80..8F *)

Definition between (lo hi b : N) : bool := ((lo <=? b) && (b <=? hi))%N.

Definition utf8_step (s : utf8_state) (b : N) : option utf8_state :=
  match s with
  | Whole =>
      if (b <? 128)%N then Some Whole
      else if between 194 223 b then Some Last
      else if (b =? 224)%N then Some Last2_E0
      else if (b =? 237)%N then Some Last2_ED
      else if between 225 239 b then Some Last2
      else if (b =? 240)%N then Some Last3_F0
      else if between 241 243 b then Some Last3
      else if (b =? 244)%N then Some Last3_F4
      else None
  | Last => if between 128 191 b then Some Whole else None
  | Last2 => if between 128 191 b then Some Last else None
  | Last2_E0 => if between 160 191 b then Some Last else None
  | Last2_ED => if between 128 159 b then Some Last else None
  | Last3 => if between 128 191 b then Some Last2 else None
  | Last3_F0 => if between 144 191 b then Some Last2 else None
  | Last3_F4 => if between 128 143 b then Some Last2 else None
  end.

Fixpoint utf8_run (s : utf8_state) (text : string) : option utf8_state :=
  match text with
  | EmptyString => Some s
  | String c rest =>
      match utf8_step s (N_of_ascii c) with
      | Some s' => utf8_run s' rest
      | None => None
      end
  end.

Definition valid_utf8 (text : string) : bool :=
  match utf8_run Whole text with
  | Some Whole => true
  | _ => false
  end.

(** Whether the console can encode a line. *)
Definition printable (E : host) (line : string) : bool :=
  is_ascii line ||
  match stdout_encoding E with
  | Limited => false
  | Unicode strict => negb strict || valid_utf8 line
  end.

(** [print(line)]: the line is encoded as a whole before anything is
    written. *)
Definition print (E : host) (line : string) : M unit :=
  fun w =>
    if printable E line then (Ok tt, World (fs w) (stdout w ++ [line]))
    else (Raise (os_error E "UnicodeEncodeError" line), w).

(** [os.path.exists(p)]; the file system holds the paths the process can
    see. *)
Definition path_exists (p : string) : M bool :=
  fun w => (Ok (match fs w !! p with Some _ => true | None => false end), w).

(** [os.path.join(a, b)] *)
Definition starts_with_sep (s : string) : bool :=
  match s with
  | String c _ => Ascii.eqb c "/"%char
  | EmptyString => false
  end.

Fixpoint ends_with_sep (s : string) : bool :=
  match s with
  | EmptyString => false
  | String c EmptyString => Ascii.eqb c "/"%char
  | String _ s' => ends_with_sep s'
  end.

Definition path_join (a b : string) : string :=
  if starts_with_sep b then b
  else if String.eqb a "" || ends_with_sep a then a ++ b
  else a ++ "/" ++ b.

(** The proper ancestors of a path: its prefixes that end before a
    separator. *)
Fixpoint parents_from (pre s : string) : list string :=
  match s with
  | EmptyString => []
  | String c s' =>
      (if Ascii.eqb c "/"%char && negb (String.eqb pre "") then [pre] else [])
      ++ parents_from (pre ++ String c EmptyString) s'
  end.

Definition parents (p : string) : list string := parents_from "" p.

(** One directory of [os.makedirs]: created when absent, unless the
    system refuses; accepted when it is a directory; an error [cls] when
    it is a file. *)
Definition mkdir_exist_ok (E : host) (cls : string) (p : string) : M unit :=
  fun w =>
    match fs w !! p with
    | None =>
        match mkdir_refused E p with
        | Some refusal => (Raise (os_error E refusal p), w)
        | None => (Ok tt, World (<[p := Dir]> (fs w)) (stdout w))
        end
    | Some Dir => (Ok tt, w)
    | Some (File _) => (Raise (os_error E cls p), w)
    end.

Fixpoint mkdirs (E : host) (ps : list string) : M unit :=
  match ps with
  | [] => ret tt
  | p :: ps' => mkdir_exist_ok E "NotADirectoryError" p ;;; mkdirs E ps'
  end.

(** [os.makedirs(name, exist_ok=True)]: an existing directory is accepted
    as it is; otherwise the missing ancestors are created, then the
    directory itself. *)
Definition makedirs (E : host) (name : string) : M unit :=
  fun w =>
    if String.eqb name "" then raise (os_error E "FileNotFoundError" name) w
    else
      match fs w !! name with
      | Some Dir => ret tt w
      | _ => (mkdirs E (parents name) ;;;
              mkdir_exist_ok E "FileExistsError" name) w
      end.

(** What the bytes of a file are to the imaging library. *)
Inductive contents : Type :=
  (** [Image.open] raises: [UnidentifiedImageError] when no format knows
      the header *)
  | Rejected (cls : string)
  (** the header is read and [Image.open] returns; decoding the pixel
      data raises ([OSError] for a truncated file) *)
  | Damaged (cls : string)
  (** an image *)
  | Picture (im : image).

(** The image file formats, as far as the script meets them. *)
Record codec : Type := Codec {
  decode : string -> contents;
  (** the bytes of [im.save(path, format="PNG")] *)
  encode_png : image -> string
}.

Section Script.

Variable F : filters.
Variable C : codec.
Variable E : host.

(** [Image.open(path)] is lazy: it identifies the file and reads its
    header; the pixel data is decoded when the image is first used.  The
    image it returns is modelled by what that first use yields. *)
Definition image_open (path : string) : M (result image) :=
  fun w =>
    match fs w !! path with
    | None => (Raise (os_error E "FileNotFoundError" path), w)
    | Some Dir => (Raise (os_error E "IsADirectoryError" path), w)
    | Some (File bytes) =>
        match read_refused E path with
        | Some refusal => (Raise (os_error E refusal path), w)
        | None =>
            match decode C bytes with
            | Rejected cls => (Raise (os_error E cls path), w)
            | Damaged cls => (Ok (Raise (os_error E cls path)), w)
            | Picture im => (Ok (Ok im), w)
            end
        end
    end.

(** [im.save(path, format="PNG")]: the file is opened for writing, which
    creates or empties it; a directory of that name cannot be opened, and
    the system may refuse. *)
Definition save (im : image) (path : string) : M unit :=
  fun w =>
    match fs w !! path with
    | Some Dir => (Raise (os_error E "IsADirectoryError" path), w)
    | _ =>
        match write_refused E path with
        | Some refusal => (Raise (os_error E refusal path), w)
        | None =>
            (Ok tt,
             World (<[path := File (encode_png C im)]> (fs w)) (stdout w))
        end
    end.

(** [f"icon-{size}.png"] under [out_dir] *)
Definition output_path (out_dir : string) (size : Z) : string :=
  path_join out_dir ("icon-" ++ Py.str size ++ ".png").

(** [f"✅ Generated {output_path}"] *)
Definition confirmation (out_dir : string) (size : Z) : string :=
  "✅ Generated " ++ output_path out_dir size.

(** The body of [for size in SIZES] (lines 60-64).  [img] is the image
    as [Image.open] returned it: [img.convert] (line 33), the first thing
    [resize_with_padding] does, loads its pixel data. *)
Fixpoint icons_loop (img : result image) (out_dir : string) (sizes : list Z)
  : M unit :=
  match sizes with
  | [] => ret tt
  | size :: rest =>
      square <~ lift (let? loaded := img in
                      resize_with_padding F loaded size) ;;
      save square (output_path out_dir size) ;;;
      print E (confirmation out_dir size) ;;;
      icons_loop img out_dir rest
  end.

(** [f"❌ Source image not found: {src_path}"] *)
Definition not_found (src_path : string) : string :=
  "❌ Source image not found: " ++ src_path.

Definition all_done : string := "🎉 All icons generated successfully!".

(** [generate_icons(src_path, out_dir)] *)
Definition generate_icons (src_path out_dir : string) : M unit :=
  found <~ path_exists src_path ;;
  if negb found then
    print E (not_found src_path) ;;;
    raise (SystemExit 1)
  else
    makedirs E out_dir ;;;
    img <~ image_open src_path ;;
    icons_loop img out_dir SIZES ;;;
    print E all_done.

(** The [__main__] block; [argv] is [sys.argv]. *)
Definition main (argv : list string) : M unit :=
  if (Z.of_nat (length argv) <? 2) then
    print E "Usage: python generate_icons.py <source.png> [output_dir]" ;;;
    raise (SystemExit 1)
  else
    let source := nth 1 argv "" in
    let output_dir :=
      if (2 <? Z.of_nat (length argv)) then nth 2 argv "" else "icons" in
    generate_icons source output_dir.

(** The exit status of the process: 0 when the script runs to its end,
    the code of [sys.exit], 1 after an uncaught exception. *)
Definition exit_status (r : result unit) : Z :=
  match r with
  | Ok _ => 0
  | Raise (SystemExit code) => code
  | Raise (PyErr _ _) => 1
  end.

Definition run (argv : list string) (w : world) : Z * world :=
  let '(r, w') := main argv w in (exit_status r, w').

(** *** What a run leaves behind *)

(** The bytes written for size [S]. *)
Definition icon_bytes (img : image) (S : Z) : string :=
  match resize_with_padding F img S with
  | Ok square => encode_png C square
  | Raise _ => ""
  end.

(** The file system after the icons of the sizes [done] were written, in
    that order. *)
Definition write_icons (img : image) (out_dir : string) (done : list Z)
  (m : gmap string node) : gmap string node :=
  foldl (fun m S => <[output_path out_dir S := File (icon_bytes img S)]> m)
        m done.

(** The confirmation lines of the sizes [done]. *)
Definition confirmations (out_dir : string) (done : list Z) : list string :=
  map (confirmation out_dir) done.

End Script.

Definition is_dir (n : option node) : bool :=
  match n with Some Dir => true | _ => false end.

(** [m'] is [m] with some directories created. *)
Definition dirs_added (m m' : gmap string node) : Prop :=
  forall p, m' !! p = m !! p \/ (m !! p = None /\ m' !! p = Some Dir).

Definition is_file (n : option node) : bool :=
  match n with Some (File _) => true | _ => false end.

(** Whether one directory of [os.makedirs] is there or can be made. *)
Definition can_mkdir (E : host) (m : gmap string node) (p : string) : bool :=
  match m !! p with
  | Some Dir => true
  | Some (File _) => false
  | None => permits (mkdir_refused E p)
  end.

(** When [os.makedirs(name, exist_ok=True)] can succeed: the name is not
    empty and is a directory already, or neither it nor any of its
    ancestors is a file and the system lets the missing ones be made. *)
Definition can_makedirs (E : host) (m : gmap string node) (name : string)
  : bool :=
  negb (String.eqb name "") &&
  (is_dir (m !! name) ||
   (forallb (can_mkdir E m) (parents name) && can_mkdir E m name)).

(** Whether [save] can write a path: no directory is there and the
    system lets it be opened for writing. *)
Definition can_write (E : host) (m : gmap string node) (path : string)
  : bool :=
  negb (is_dir (m !! path)) && permits (write_refused E path).

(** The line the [__main__] block prints when no source is given. *)
Definition usage : string :=
  "Usage: python generate_icons.py <source.png> [output_dir]".

(** ** Sample instances

    A pixel-copying stand-in for the filters, a toy codec, a host and a
    few worlds, to run the definitions on concrete inputs. *)

Module Sample.

Definition nearest : filters :=
  Filters (fun _ im => getpixel im)
          (fun im w h x y => getpixel im (x * width im / w) (y * height im / h)).

Definition solid (w h : Z) : image :=
  Image "RGB" w h (fun _ _ => Pixel 200 100 50 255).

(** A file whose bytes are ["<w>x<h>"] decodes to a solid image of that
    size, for the three sizes used below; a file cut short has a header
    and no pixel data. *)
Definition toy : codec :=
  Codec (fun bytes =>
           if String.eqb bytes "100x50" then Picture (solid 100 50)
           else if String.eqb bytes "100x1" then Picture (solid 100 1)
           else if String.eqb bytes "49x49" then Picture (solid 49 49)
           else if String.eqb bytes "100x50 cut short" then Damaged "OSError"
           else Rejected "UnidentifiedImageError")
        (fun im =>
           ("PNG " ++ Py.str (width im) ++ "x" ++ Py.str (height im))%string).

(** A host that refuses nothing, with a UTF-8 console. *)
Definition posix : host :=
  Host (fun _ => None) (fun _ => None) (fun _ => None) (Unicode true)
       (fun cls subject => (cls ++ ": " ++ subject)%string).

(** Only the source file exists. *)
Definition fresh : world :=
  World (<["logo.png" := File "100x50"]> ∅) [].




End Sample.

(** ** More file systems *)

Module Cases.

(** The source file is an image cut short. *)
Definition truncated : world :=
  World (<["logo.png" := File "100x50 cut short"]> ∅) [].

(** A file sits where the output directory is to be made. *)
Definition occupied : world :=
  World (<["logo.png" := File "100x50"]>
         (<["icons" := File "notes"]> ∅)) [].

(** The source is one hundred times as wide as it is high. *)
Definition sliver : world :=
  World (<["logo.png" := File "100x1"]> ∅) [].


End Cases.

(** ** Notions used to state the facts about rounding *)

(** ** Locations

    [located m l num den]: the exact value [num / den] lies in
    [[m, m + 1)], and [l] says where: on [m], or below, at or above
    the midpoint. *)
Definition located (m : Z) (l : location) (num den : Z) : Prop :=
  0 < den /\ 0 <= m /\
  match l with
  | loc_Exact => num = m * den
  | loc_Inexact c =>
      m * den < num < (m + 1) * den /\
      (2 * num ?= (2 * m + 1) * den) = c
  end.

Ltac compare_cases :=
  repeat match goal with
  | H : context [(?a ?= ?b)] |- _ =>
      let E := fresh "E" in
      destruct (Z.compare_spec a b) as [E|E|E]; try discriminate
  | |- context [(?a ?= ?b)] =>
      let E := fresh "E" in
      destruct (Z.compare_spec a b) as [E|E|E]
  end.

(** The sign of a number that is not NaN. *)
Definition signed (s : bool) (x : spec_float) : Prop :=
  match x with
  | S754_zero s' | S754_infinity s' | S754_finite s' _ _ => s' = s
  | S754_nan => False
  end.

(** ** Values

    Every binary64 number is an integer multiple of [2 ^ -1074];
    [scaled x] is the value of [x] in units of [2 ^ -bias]. *)
Definition bias : Z := 1100.

Definition scaled (x : spec_float) : Z :=
  match x with
  | S754_finite s m e => cond_Zopp s (Zpos m * 2 ^ (e + bias))
  | _ => 0
  end.

(** A normal number of sign [s]. *)
Definition normal (s : bool) (x : spec_float) : Prop :=
  exists m e,
    x = S754_finite s m e /\ 2 ^ 52 <= Zpos m < 2 ^ 53 /\ -1074 <= e <= 971.

(** A number that is zero or negative. *)
Definition nonpos (x : spec_float) : Prop :=
  match x with
  | S754_zero _ | S754_finite true _ _ => True
  | _ => False
  end.

Definition overflow_or {A} (P : A -> Prop) (r : result A) : Prop :=
  match r with
  | Ok a => P a
  | Raise e => exists msg, e = PyErr "OverflowError" msg
  end.

Definition nonneg (x : spec_float) : Prop :=
  match x with
  | S754_zero false | S754_finite false _ _ => True
  | _ => False
  end.

(** A result that, when it is an exception, is an ordinary one and not
    [SystemExit]. *)
Definition ordinary {A} (r : result A) : Prop :=
  forall e, r = Raise e -> exists cls msg, e = PyErr cls msg.

(** * Facts about binary64 rounding

    [SpecFloat] gives the operations as programs on mantissa and
    exponent.  The lemmas below relate what they compute to the exact
    value, for operands in the normal range, which is where the sizes of
    an image put them. *)

Module Rounding.

Lemma digits2_pos_bounds (p : positive) :
  2 ^ (Zpos (digits2_pos p) - 1) <= Zpos p < 2 ^ Zpos (digits2_pos p).
Proof.
  induction p as [p IH | p IH | ]; cbn [digits2_pos].
  - rewrite Pos2Z.inj_succ.
    replace (Z.succ (Zpos (digits2_pos p)) - 1)
      with (Z.succ (Zpos (digits2_pos p) - 1)) by lia.
    rewrite !Z.pow_succ_r by lia. lia.
  - rewrite Pos2Z.inj_succ.
    replace (Z.succ (Zpos (digits2_pos p)) - 1)
      with (Z.succ (Zpos (digits2_pos p) - 1)) by lia.
    rewrite !Z.pow_succ_r by lia. lia.
  - cbn. lia.
Qed.

(** The number of digits is determined by the enclosing powers of two. *)
Lemma digits2_pos_unique (p : positive) (d : Z) :
  2 ^ (d - 1) <= Zpos p < 2 ^ d -> Zpos (digits2_pos p) = d.
Proof.
  intros [Hlo Hhi].
  pose proof (digits2_pos_bounds p) as [Blo Bhi].
  assert (0 < d).
  { destruct (Z_lt_le_dec 0 d) as [|Hd]; [assumption|].
    assert (2 ^ d <= 2 ^ 0) by (apply Z.pow_le_mono_r; lia).
    change (2 ^ 0) with 1 in *. lia. }
  set (k := Zpos (digits2_pos p)) in *.
  destruct (Z.lt_trichotomy k d) as [Hlt | [Heq | Hgt]]; [|assumption|].
  - assert (2 ^ k <= 2 ^ (d - 1)) by (apply Z.pow_le_mono_r; lia). lia.
  - assert (2 ^ d <= 2 ^ (k - 1)) by (apply Z.pow_le_mono_r; lia). lia.
Qed.

Lemma located_range m l num den :
  located m l num den -> m * den <= num < (m + 1) * den.
Proof.
  intros (Hd & Hm & Hl). destruct l as [|c]; [nia | lia].
Qed.

Lemma loc_of_shr_record_of_loc m l :
  loc_of_shr_record (shr_record_of_loc m l) = l.
Proof. destruct l as [|[]]; reflexivity. Qed.

Lemma shr_m_of_loc m l : shr_m (shr_record_of_loc m l) = m.
Proof. destruct l as [|[]]; reflexivity. Qed.

(** One shift to the right halves the unit and keeps the location. *)
Lemma shr_1_located mrs num den :
  located (shr_m mrs) (loc_of_shr_record mrs) num den ->
  located (shr_m (shr_1 mrs)) (loc_of_shr_record (shr_1 mrs)) num (2 * den).
Proof.
  destruct mrs as [m r s]. cbn [shr_m].
  intros (Hd & Hm & Hl).
  destruct m as [|[p|p|]|p]; try lia;
    destruct r, s; cbn in Hl |- *; unfold located; cbn [shr_m];
    repeat split; try lia;
    repeat match goal with H : _ /\ _ |- _ => destruct H end;
    compare_cases; try lia; try reflexivity.
Qed.

Lemma pow2_xO (p : positive) : 2 ^ Zpos p~0 = 2 ^ Zpos p * 2 ^ Zpos p.
Proof.
  replace (Zpos p~0) with (Zpos p + Zpos p) by lia.
  apply Z.pow_add_r; lia.
Qed.

Lemma pow2_xI (p : positive) : 2 ^ Zpos p~1 = 2 ^ Zpos p * (2 ^ Zpos p * 2).
Proof.
  replace (Zpos p~1) with (Zpos p + (Zpos p + 1)) by lia.
  rewrite !Z.pow_add_r by lia. reflexivity.
Qed.

Lemma iter_shr_1_located (p : positive) :
  forall mrs num den,
    located (shr_m mrs) (loc_of_shr_record mrs) num den ->
    located (shr_m (SpecFloat.iter_pos shr_1 p mrs))
            (loc_of_shr_record (SpecFloat.iter_pos shr_1 p mrs))
            num (2 ^ Zpos p * den).
Proof.
  induction p as [p IH | p IH | ]; intros mrs num den H;
    cbn [SpecFloat.iter_pos].
  - apply shr_1_located, IH, IH in H.
    rewrite pow2_xI.
    replace (2 ^ Zpos p * (2 ^ Zpos p * 2) * den)
      with (2 ^ Zpos p * (2 ^ Zpos p * (2 * den))) by ring.
    exact H.
  - apply IH, IH in H.
    rewrite pow2_xO, <- Z.mul_assoc. exact H.
  - apply shr_1_located in H. exact H.
Qed.

(** ** Shifting to the target precision, normal range *)

Lemma shr_fexp_normal m e l num den d :
  located m l num den ->
  2 ^ (d - 1) <= m < 2 ^ d -> 53 <= d -> -1074 <= d + e - 53 ->
  exists mrs,
    shr_fexp Py.prec Py.emax m e l = (mrs, e + (d - 53)) /\
    located (shr_m mrs) (loc_of_shr_record mrs) num (2 ^ (d - 53) * den) /\
    2 ^ 52 <= shr_m mrs < 2 ^ 53.
Proof.
  intros Hloc Hm Hd He.
  assert (0 < 2 ^ (d - 1)) by (apply Z.pow_pos_nonneg; lia).
  destruct m as [|p|p]; try lia.
  unfold shr_fexp, fexp, emin, Py.prec, Py.emax. cbn [Zdigits2].
  rewrite (digits2_pos_unique p d Hm).
  replace (Z.max (d + e - 53) (3 - 1024 - 53) - e) with (d - 53) by lia.
  unfold shr.
  destruct (d - 53) as [|n|n] eqn:En; try lia.
  - exists (shr_record_of_loc (Zpos p) l).
    rewrite loc_of_shr_record_of_loc, shr_m_of_loc.
    split; [f_equal; lia|]. split.
    + change (2 ^ 0) with 1. rewrite Z.mul_1_l. exact Hloc.
    + replace d with 53 in Hm by lia. exact Hm.
  - exists (SpecFloat.iter_pos shr_1 n (shr_record_of_loc (Zpos p) l)).
    split; [reflexivity|].
    pose proof (iter_shr_1_located n (shr_record_of_loc (Zpos p) l) num den)
      as H1.
    rewrite loc_of_shr_record_of_loc, shr_m_of_loc in H1.
    specialize (H1 Hloc). split; [exact H1|].
    assert (Hden : 0 < den) by apply Hloc.
    apply located_range in H1. apply located_range in Hloc.
    set (m' := shr_m _) in *. set (P := 2 ^ Zpos n) in *.
    assert (HP : 0 < P) by (apply Z.pow_pos_nonneg; lia).
    assert (E1 : 2 ^ d = 2 ^ 53 * P).
    { replace d with (53 + Zpos n) by lia. apply Z.pow_add_r; lia. }
    assert (E2 : 2 ^ (d - 1) = 2 ^ 52 * P).
    { replace (d - 1) with (52 + Zpos n) by lia. apply Z.pow_add_r; lia. }
    rewrite E1, E2 in Hm. clearbody P m'.
    change (2 ^ 52) with 4503599627370496 in *.
    change (2 ^ 53) with 9007199254740992 in *.
    nia.
Qed.

(** ** Rounding to nearest, ties to even *)

Lemma round_nearest_even_located m l num den :
  located m l num den ->
  let r := round_nearest_even m l in
  m <= r <= m + 1 /\
  2 * r * den <= 2 * num + den /\ 2 * num <= 2 * r * den + den.
Proof.
  intros (Hden & Hm & Hl). cbn zeta.
  destruct l as [|[]]; cbn [round_nearest_even].
  - subst num. lia.
  - destruct Hl as [Hr Hc]. apply Z.compare_eq in Hc.
    destruct (Z.even m); lia.
  - destruct Hl as [Hr Hc]. rewrite Z.compare_lt_iff in Hc. lia.
  - destruct Hl as [Hr Hc]. rewrite Z.compare_gt_iff in Hc. lia.
Qed.

(** [binary_round_aux] on a value of [d >= 53] digits whose rounded
    exponent is in the normal range: the result is a normal number
    within half a unit in the last place of the exact value
    [num / den * 2 ^ ex]. *)
Lemma binary_round_aux_normal s mx ex lx num den d :
  located mx lx num den ->
  2 ^ (d - 1) <= mx < 2 ^ d -> 53 <= d ->
  -1074 <= d + ex - 53 -> d + ex - 53 < 971 ->
  exists m k,
    binary_round_aux Py.prec Py.emax s mx ex lx = S754_finite s m (ex + k) /\
    2 ^ 52 <= Zpos m < 2 ^ 53 /\
    d - 53 <= k <= d - 52 /\
    2 * (Zpos m * 2 ^ k) * den <= 2 * num + 2 ^ k * den /\
    2 * num <= 2 * (Zpos m * 2 ^ k) * den + 2 ^ k * den.
Proof.
  intros Hloc Hm Hd Hlo Hhi.
  destruct (shr_fexp_normal mx ex lx num den d Hloc Hm Hd Hlo)
    as (mrs1 & E1 & L1 & B1).
  pose proof (round_nearest_even_located _ _ _ _ L1) as (Rr & Rup & Rlo).
  set (r := round_nearest_even (shr_m mrs1) (loc_of_shr_record mrs1)) in *.
  assert (Hden : 0 < den) by apply Hloc.
  remember (d - 53) as n eqn:Hn.
  assert (HP : 0 < 2 ^ n) by (apply Z.pow_pos_nonneg; lia).
  unfold binary_round_aux. rewrite E1. fold r.
  destruct (Z_lt_le_dec r (2 ^ 53)) as [Hr | Hr].
  - (* no carry: [r] has 53 digits *)
    assert (Lr : located r loc_Exact r 1) by (unfold located; lia).
    destruct (shr_fexp_normal r (ex + n) loc_Exact r 1 53 Lr)
      as (mrs2 & E2 & L2 & B2);
      [change (2 ^ (53 - 1)) with (2 ^ 52); lia | lia | lia |].
    rewrite E2. apply located_range in L2.
    change (2 ^ (53 - 53) * 1) with 1 in L2.
    assert (Em : shr_m mrs2 = r) by lia. rewrite Em.
    destruct r as [|pr|pr] eqn:Er; try lia.
    replace (ex + n + (53 - 53)) with (ex + n) by lia.
    unfold Py.emax, Py.prec.
    destruct (Z.leb_spec (ex + n) (1024 - 53)); [|lia].
    exists pr, n. repeat split; lia.
  - (* carry: [r] is [2 ^ 53] *)
    assert (Er : r = 2 ^ 53) by lia.
    assert (Lr : located r loc_Exact r 1) by (unfold located; lia).
    destruct (shr_fexp_normal r (ex + n) loc_Exact r 1 54 Lr)
      as (mrs2 & E2 & L2 & B2); [| lia | lia |].
    { rewrite Er. change (54 - 1) with 53. split; [lia|].
      change (2 ^ 53) with 9007199254740992.
      change (2 ^ 54) with 18014398509481984. lia. }
    rewrite E2. apply located_range in L2.
    change (2 ^ (54 - 53) * 1) with 2 in L2.
    assert (Em : shr_m mrs2 = 2 ^ 52).
    { rewrite Er in L2. change (2 ^ 53) with (2 * 2 ^ 52) in L2. lia. }
    rewrite Em. change (2 ^ 52) with (Zpos (2 ^ 52)%positive).
    cbv iota beta.
    replace (ex + n + (54 - 53)) with (ex + (n + 1)) by lia.
    unfold Py.emax, Py.prec.
    destruct (Z.leb_spec (ex + (n + 1)) (1024 - 53)); [|lia].
    exists (2 ^ 52)%positive, (n + 1). repeat split; try lia.
    * rewrite Z.pow_add_r by lia. change (2 ^ 1) with 2.
      change (Zpos (2 ^ 52)%positive) with 4503599627370496.
      rewrite Er in Rup. change (2 ^ 53) with 9007199254740992 in Rup.
      nia.
    * rewrite Z.pow_add_r by lia. change (2 ^ 1) with 2.
      change (Zpos (2 ^ 52)%positive) with 4503599627370496.
      rewrite Er in Rlo. change (2 ^ 53) with 9007199254740992 in Rlo.
      nia.
Qed.

(** An exact value of exactly 53 digits is returned as it is. *)
Lemma binary_round_aux_exact s (p : positive) ex :
  2 ^ 52 <= Zpos p < 2 ^ 53 -> -1074 <= ex <= 971 ->
  binary_round_aux Py.prec Py.emax s (Zpos p) ex loc_Exact
  = S754_finite s p ex.
Proof.
  intros Hp He.
  assert (Hd : Zpos (digits2_pos p) = 53)
    by (apply digits2_pos_unique; exact Hp).
  assert (Hs : shr_fexp Py.prec Py.emax (Zpos p) ex loc_Exact
               = (shr_record_of_loc (Zpos p) loc_Exact, ex)).
  { unfold shr_fexp, fexp, emin, Py.prec, Py.emax. cbn [Zdigits2].
    rewrite Hd.
    replace (Z.max (53 + ex - 53) (3 - 1024 - 53) - ex) with 0 by lia.
    reflexivity. }
  unfold binary_round_aux. rewrite Hs.
  cbn [shr_record_of_loc loc_of_shr_record shr_m round_nearest_even].
  rewrite Hs. cbn [shr_record_of_loc shr_m].
  unfold Py.prec, Py.emax.
  destruct (Z.leb_spec ex (1024 - 53)); [reflexivity | lia].
Qed.

(** ** Signs: rounding never changes the sign and never yields NaN *)

Lemma shr_1_nonneg mrs : 0 <= shr_m mrs -> 0 <= shr_m (shr_1 mrs).
Proof.
  destruct mrs as [[|[p|p|]|p] r s]; cbn; lia.
Qed.

Lemma iter_shr_1_nonneg (p : positive) :
  forall mrs, 0 <= shr_m mrs -> 0 <= shr_m (SpecFloat.iter_pos shr_1 p mrs).
Proof.
  induction p as [p IH | p IH | ]; intros mrs H; cbn [SpecFloat.iter_pos].
  - apply IH, IH, shr_1_nonneg, H.
  - apply IH, IH, H.
  - apply shr_1_nonneg, H.
Qed.

Lemma shr_fexp_nonneg m e l :
  0 <= m -> 0 <= shr_m (fst (shr_fexp Py.prec Py.emax m e l)).
Proof.
  intros Hm. unfold shr_fexp, shr.
  destruct (fexp Py.prec Py.emax (Zdigits2 m + e) - e) as [|n|n];
    cbn [fst]; rewrite ?shr_m_of_loc; try exact Hm.
  apply iter_shr_1_nonneg. rewrite shr_m_of_loc. exact Hm.
Qed.

Lemma round_nearest_even_nonneg m l : 0 <= m -> 0 <= round_nearest_even m l.
Proof.
  intros Hm. destruct l as [|[]]; cbn [round_nearest_even]; try lia.
  destruct (Z.even m); lia.
Qed.

Lemma binary_round_aux_signed s mx ex lx :
  0 <= mx -> signed s (binary_round_aux Py.prec Py.emax s mx ex lx).
Proof.
  intros Hm. unfold binary_round_aux.
  pose proof (shr_fexp_nonneg mx ex lx Hm) as H1.
  destruct (shr_fexp Py.prec Py.emax mx ex lx) as [mrs1 e1]. cbn [fst] in H1.
  pose proof (round_nearest_even_nonneg _ (loc_of_shr_record mrs1) H1) as H2.
  pose proof (shr_fexp_nonneg _ e1 loc_Exact H2) as H3.
  destruct (shr_fexp Py.prec Py.emax _ e1 loc_Exact) as [mrs2 e2].
  cbn [fst] in H3.
  destruct (shr_m mrs2) as [|q|q]; try lia; cbn [signed]; try reflexivity.
  destruct (e2 <=? Py.emax - Py.prec); reflexivity.
Qed.

(** ** Values *)

Lemma pow2_pos (n : Z) : 0 <= n -> 0 < 2 ^ n.
Proof. intros H. apply Z.pow_pos_nonneg; lia. Qed.

Lemma pow2_split (a b : Z) : 0 <= a -> 0 <= b -> 2 ^ (a + b) = 2 ^ a * 2 ^ b.
Proof. intros Ha Hb. apply Z.pow_add_r; assumption. Qed.

Lemma pow2_ge_2 (n : Z) : 1 <= n -> 2 <= 2 ^ n.
Proof.
  intros H. change 2 with (2 ^ 1) at 1. apply Z.pow_le_mono_r; lia.
Qed.

(** On normal numbers a larger exponent is a larger value. *)
Lemma scaled_lt_exponent m1 e1 m2 e2 :
  2 ^ 52 <= Zpos m1 < 2 ^ 53 -> 2 ^ 52 <= Zpos m2 < 2 ^ 53 ->
  - bias <= e1 -> e1 < e2 ->
  Zpos m1 * 2 ^ (e1 + bias) < Zpos m2 * 2 ^ (e2 + bias).
Proof.
  intros H1 H2 Hb Hlt. unfold bias in *.
  replace (e2 + 1100) with ((e1 + 1100) + (e2 - e1)) by lia.
  rewrite (pow2_split (e1 + 1100) (e2 - e1)) by lia.
  pose proof (pow2_pos (e1 + 1100) ltac:(lia)) as HT.
  pose proof (pow2_ge_2 (e2 - e1) ltac:(lia)) as HD.
  change (2 ^ 52) with 4503599627370496 in *.
  change (2 ^ 53) with 9007199254740992 in *.
  generalize dependent (2 ^ (e1 + 1100)). generalize dependent (2 ^ (e2 - e1)).
  intros D HD T HT.
  assert (HX : 2 * T <= T * D) by nia.
  generalize dependent (T * D). intros X HX.
  assert (Zpos m1 * T < 9007199254740992 * T) by nia.
  assert (4503599627370496 * X <= Zpos m2 * X) by nia.
  lia.
Qed.

Lemma float_lt_scaled a b :
  normal false a -> normal false b ->
  Py.float_lt a b = (scaled a <? scaled b).
Proof.
  intros (m1 & e1 & -> & Hm1 & He1) (m2 & e2 & -> & Hm2 & He2).
  unfold Py.float_lt, SFltb, SFcompare, scaled, cond_Zopp.
  unfold bias in *.
  destruct (Z.compare_spec e1 e2) as [E | E | E].
  - subst e2.
    pose proof (pow2_pos (e1 + 1100) ltac:(lia)) as HT.
    change (Pos.compare_cont Eq m1 m2) with (Pos.compare m1 m2).
    rewrite Pos2Z.inj_compare.
    destruct (Z.compare_spec (Zpos m1) (Zpos m2)) as [C | C | C];
      symmetry; [apply Z.ltb_ge | apply Z.ltb_lt | apply Z.ltb_ge]; nia.
  - symmetry. apply Z.ltb_lt.
    apply (scaled_lt_exponent m1 e1 m2 e2); unfold bias; lia.
  - symmetry. apply Z.ltb_ge. apply Z.lt_le_incl.
    apply (scaled_lt_exponent m2 e2 m1 e1); unfold bias; lia.
Qed.

(** [min] returns one of its arguments, and on normal positive numbers
    the one of smaller value. *)
Lemma min_cases a b : Py.min a b = a \/ Py.min a b = b.
Proof. unfold Py.min. destruct (Py.float_lt b a); auto. Qed.

Lemma min_scaled a b :
  normal false a -> normal false b ->
  scaled (Py.min a b) <= scaled a /\ scaled (Py.min a b) <= scaled b.
Proof.
  intros Ha Hb. unfold Py.min. rewrite (float_lt_scaled b a Hb Ha).
  destruct (Z.ltb_spec (scaled b) (scaled a)); lia.
Qed.

(** ** Division *)

Lemma div_eucl_div_mod a b : Z.div_eucl a b = (a / b, a mod b).
Proof. unfold Z.div, Z.modulo. destruct (Z.div_eucl a b); reflexivity. Qed.

(** The location computed from the remainder of a division. *)
Lemma new_location_located num den :
  0 < den -> 0 <= num ->
  located (num / den) (new_location den (num mod den)) num den.
Proof.
  intros Hden Hnum.
  pose proof (Z.div_mod num den ltac:(lia)) as Hdm.
  pose proof (Z.mod_pos_bound num den Hden) as Hk.
  pose proof (Z.div_pos num den Hnum Hden) as Hq.
  set (q := num / den) in *. set (k := num mod den) in *.
  clearbody q k. subst num.
  unfold located, new_location.
  split; [exact Hden|]. split; [exact Hq|].
  destruct (Z.even den) eqn:Ev.
  - unfold new_location_even. destruct (Z.eqb_spec k 0) as [-> | Hk0].
    + lia.
    + split; [lia|]. compare_cases; first [reflexivity | lia].
  - unfold new_location_odd. destruct (Z.eqb_spec k 0) as [-> | Hk0].
    + lia.
    + split; [lia|].
      assert (Hodd : Z.odd den = true) by (rewrite <- Z.negb_even, Ev; easy).
      apply Z.odd_spec in Hodd. destruct Hodd as [t Ht].
      compare_cases; first [reflexivity | lia].
Qed.

Lemma digits_below (p : positive) (n : Z) :
  0 <= n -> Zpos p < 2 ^ n -> 1 <= Zpos (digits2_pos p) <= n.
Proof.
  intros Hn Hp. pose proof (digits2_pos_bounds p) as [Hlo _].
  split; [lia|].
  destruct (Z_le_gt_dec (Zpos (digits2_pos p)) n) as [|Hgt]; [assumption|].
  assert (2 ^ n <= 2 ^ (Zpos (digits2_pos p) - 1))
    by (apply Z.pow_le_mono_r; lia).
  lia.
Qed.

(** [a / b] on image-sized positive integers: a normal number within a
    relative error of [2 ^ -53] of the quotient. *)
Lemma int_truediv_normal (a b : Z) :
  0 < a < 2 ^ 31 -> 0 < b < 2 ^ 31 ->
  exists m e,
    Py.int_truediv a b = Ok (S754_finite false m e) /\
    2 ^ 52 <= Zpos m < 2 ^ 53 /\ -84 <= e <= -21 /\
    Zpos m * 2 ^ (e + bias) * b * (2 ^ 53 - 1) <= a * 2 ^ 53 * 2 ^ bias /\
    a * 2 ^ 53 * 2 ^ bias <= Zpos m * 2 ^ (e + bias) * b * (2 ^ 53 + 1).
Proof.
  intros Ha Hb.
  destruct a as [|pa|pa]; try lia. destruct b as [|pb|pb]; try lia.
  unfold Py.int_truediv. cbn [Z.eqb Py.exact SFdiv xorb].
  unfold SFdiv_core_binary. cbn [Zdigits2].
  pose proof (digits_below pa 31 ltac:(lia) (proj2 Ha)) as Hd1.
  pose proof (digits_below pb 31 ltac:(lia) (proj2 Hb)) as Hd2.
  pose proof (digits2_pos_bounds pa) as Ba.
  pose proof (digits2_pos_bounds pb) as Bb.
  set (d1 := Zpos (digits2_pos pa)) in *.
  set (d2 := Zpos (digits2_pos pb)) in *. clearbody d1 d2.
  unfold fexp, emin, Py.prec, Py.emax.
  replace (Z.min (Z.max (d1 + 0 - (d2 + 0) - 53) (3 - 1024 - 53)) (0 - 0))
    with (d1 - d2 - 53) by lia.
  replace (0 - 0 - (d1 - d2 - 53)) with (53 + d2 - d1) by lia.
  destruct (53 + d2 - d1) as [|s|s] eqn:Es; try lia.
  rewrite Z.shiftl_mul_pow2 by lia. rewrite div_eucl_div_mod.
  set (P := 2 ^ Zpos s).
  assert (HP : 0 < P) by (apply pow2_pos; lia).
  (* the quotient has 53 or 54 digits *)
  assert (EP : 2 ^ (d1 - 1) * P = 2 ^ 52 * 2 ^ d2).
  { unfold P. rewrite <- !Z.pow_add_r by lia. f_equal. lia. }
  assert (EP' : 2 ^ d1 * P = 2 ^ 54 * 2 ^ (d2 - 1)).
  { unfold P. rewrite <- !Z.pow_add_r by lia. f_equal. lia. }
  assert (HD2 : 0 < 2 ^ (d2 - 1)) by (apply pow2_pos; lia).
  pose proof (new_location_located (Zpos pa * P) (Zpos pb) ltac:(lia)
                ltac:(lia)) as Hloc.
  set (q := Zpos pa * P / Zpos pb) in *.
  pose proof (located_range _ _ _ _ Hloc) as Hq.
  assert (Hqlo : 2 ^ 52 <= q).
  { assert (2 ^ 52 * Zpos pb < (q + 1) * Zpos pb) by nia.
    assert (2 ^ 52 < q + 1) by nia. lia. }
  assert (Hqhi : q < 2 ^ 54).
  { assert (q * Zpos pb < 2 ^ 54 * Zpos pb) by nia.
    nia. }
  assert (Hd : exists d, 2 ^ (d - 1) <= q < 2 ^ d /\ 53 <= d <= 54).
  { destruct (Z_lt_le_dec q (2 ^ 53)).
    - exists 53. change (2 ^ (53 - 1)) with (2 ^ 52). lia.
    - exists 54. change (2 ^ (54 - 1)) with (2 ^ 53). lia. }
  destruct Hd as (d & Hqd & Hdr).
  destruct (binary_round_aux_normal false q (d1 - d2 - 53)
              (new_location (Zpos pb) (Zpos pa * P mod Zpos pb))
              (Zpos pa * P) (Zpos pb) d Hloc Hqd)
    as (m & k & Er & Hm & Hk & Hup & Hlo); try lia.
  unfold Py.prec, Py.emax in Er. rewrite Er.
  exists m, (d1 - d2 - 53 + k).
  split; [reflexivity|]. split; [exact Hm|]. split; [lia|].
  unfold bias.
  set (X := 2 ^ (d1 - d2 - 53 + 1100)).
  assert (HX : 0 < X) by (apply pow2_pos; lia).
  assert (EK : 2 ^ (d1 - d2 - 53 + k + 1100) = X * 2 ^ k).
  { unfold X. rewrite <- Z.pow_add_r by lia. f_equal. lia. }
  assert (EB : 2 ^ 1100 = P * X).
  { unfold P, X. rewrite <- Z.pow_add_r by lia. f_equal. lia. }
  rewrite EK, EB.
  assert (HK : 0 < 2 ^ k) by (apply pow2_pos; lia).
  set (K := 2 ^ k) in *. clearbody K X P.
  change (2 ^ 52) with 4503599627370496 in *.
  change (2 ^ 53) with 9007199254740992 in *.
  set (A := Zpos m * K * Zpos pb).
  set (N := Zpos pa * P).
  assert (HKA : 4503599627370496 * (K * Zpos pb) <= A) by (unfold A; nia).
  assert (U : A * (9007199254740992 - 1) <= 9007199254740992 * N)
    by (unfold A, N in *; lia).
  assert (L : 9007199254740992 * N <= A * (9007199254740992 + 1))
    by (unfold A, N in *; lia).
  split.
  - replace (Zpos m * (X * K) * Zpos pb * (9007199254740992 - 1))
      with (A * (9007199254740992 - 1) * X) by (unfold A; ring).
    replace (Zpos pa * 9007199254740992 * (P * X))
      with (9007199254740992 * N * X) by (unfold N; ring).
    apply Z.mul_le_mono_nonneg_r; lia.
  - replace (Zpos m * (X * K) * Zpos pb * (9007199254740992 + 1))
      with (A * (9007199254740992 + 1) * X) by (unfold A; ring).
    replace (Zpos pa * 9007199254740992 * (P * X))
      with (9007199254740992 * N * X) by (unfold N; ring).
    apply Z.mul_le_mono_nonneg_r; lia.
Qed.

(** ** Conversion of an integer *)

Lemma iter_xO (d p : positive) : Zpos (Pos.iter xO p d) = Zpos p * 2 ^ Zpos d.
Proof.
  induction d as [|d IH] using Pos.peano_ind.
  - cbn. lia.
  - rewrite Pos.iter_succ, Pos2Z.inj_xO, IH, Pos2Z.inj_succ.
    rewrite Z.pow_succ_r by lia. ring.
Qed.

(** An image-sized positive integer converts exactly. *)
Lemma int_to_float_exact (n : Z) :
  0 < n < 2 ^ 31 ->
  exists m e,
    Py.int_to_float n = Ok (S754_finite false m e) /\
    2 ^ 52 <= Zpos m < 2 ^ 53 /\ -52 <= e <= -22 /\
    Zpos m * 2 ^ (e + bias) = n * 2 ^ bias.
Proof.
  intros Hn. destruct n as [|p|p]; try lia.
  unfold Py.int_to_float, binary_normalize, binary_round, shl_align.
  pose proof (digits_below p 31 ltac:(lia) (proj2 Hn)) as Hd.
  pose proof (digits2_pos_bounds p) as Bp.
  set (d := Zpos (digits2_pos p)) in *. clearbody d.
  unfold fexp, emin, Py.prec, Py.emax.
  replace (Z.max (d + 0 - 53) (3 - 1024 - 53) - 0) with (d - 53) by lia.
  replace (Z.max (d + 0 - 53) (3 - 1024 - 53)) with (d - 53) by lia.
  destruct (d - 53) as [|k|k] eqn:Ek; try lia.
  assert (Hm : 2 ^ 52 <= Zpos (Pos.iter xO p k) < 2 ^ 53).
  { rewrite iter_xO.
    assert (E1 : 2 ^ 52 = 2 ^ (d - 1) * 2 ^ Zpos k).
    { rewrite <- Z.pow_add_r by lia. f_equal. lia. }
    assert (E2 : 2 ^ 53 = 2 ^ d * 2 ^ Zpos k).
    { rewrite <- Z.pow_add_r by lia. f_equal. lia. }
    rewrite E1, E2.
    assert (0 < 2 ^ Zpos k) by (apply pow2_pos; lia). nia. }
  pose proof (binary_round_aux_exact false (Pos.iter xO p k) (Zneg k) Hm
                ltac:(lia)) as Er.
  unfold Py.prec, Py.emax in Er. rewrite Er.
  exists (Pos.iter xO p k), (Zneg k).
  split; [reflexivity|]. split; [exact Hm|]. split; [lia|].
  unfold bias. rewrite iter_xO.
  rewrite <- Z.mul_assoc, <- Z.pow_add_r by lia.
  do 2 f_equal. lia.
Qed.

(** ** Multiplication *)

(** The product of two normal numbers whose exponents keep it in the
    normal range: within a relative error of [2 ^ -53]. *)
Lemma float_mul_normal s1 m1 e1 s2 m2 e2 :
  2 ^ 52 <= Zpos m1 < 2 ^ 53 -> 2 ^ 52 <= Zpos m2 < 2 ^ 53 ->
  -1074 <= e1 -> -1074 <= e2 -> -1000 <= e1 + e2 <= 800 ->
  exists m e,
    Py.float_mul (S754_finite s1 m1 e1) (S754_finite s2 m2 e2)
    = S754_finite (xorb s1 s2) m e /\
    2 ^ 52 <= Zpos m < 2 ^ 53 /\ -1074 <= e <= 971 /\
    Zpos m * 2 ^ (e + bias) * 2 ^ bias * (2 ^ 53 - 1)
    <= Zpos m1 * 2 ^ (e1 + bias) * (Zpos m2 * 2 ^ (e2 + bias)) * 2 ^ 53 /\
    Zpos m1 * 2 ^ (e1 + bias) * (Zpos m2 * 2 ^ (e2 + bias)) * 2 ^ 53
    <= Zpos m * 2 ^ (e + bias) * 2 ^ bias * (2 ^ 53 + 1).
Proof.
  intros H1 H2 He1 He2 He.
  unfold Py.float_mul. cbn [SFmul].
  assert (Hprod : 2 ^ 104 <= Zpos (m1 * m2) < 2 ^ 106).
  { rewrite Pos2Z.inj_mul.
    change (2 ^ 104) with (2 ^ 52 * 2 ^ 52).
    change (2 ^ 106) with (2 ^ 53 * 2 ^ 53).
    change (2 ^ 52) with 4503599627370496 in *.
    change (2 ^ 53) with 9007199254740992 in *. nia. }
  assert (Hd : exists d, 2 ^ (d - 1) <= Zpos (m1 * m2) < 2 ^ d /\
                         105 <= d <= 106).
  { destruct (Z_lt_le_dec (Zpos (m1 * m2)) (2 ^ 105)).
    - exists 105. change (2 ^ (105 - 1)) with (2 ^ 104). lia.
    - exists 106. change (2 ^ (106 - 1)) with (2 ^ 105). lia. }
  destruct Hd as (d & Hpd & Hdr).
  assert (Hloc : located (Zpos (m1 * m2)) loc_Exact (Zpos (m1 * m2)) 1)
    by (unfold located; lia).
  destruct (binary_round_aux_normal (xorb s1 s2) (Zpos (m1 * m2)) (e1 + e2)
              loc_Exact (Zpos (m1 * m2)) 1 d Hloc Hpd)
    as (m & k & Er & Hm & Hk & Hup & Hlo); try lia.
  rewrite Er. exists m, (e1 + e2 + k).
  split; [reflexivity|]. split; [exact Hm|]. split; [lia|].
  unfold bias.
  set (X := 2 ^ (e1 + e2 + 2200)).
  assert (HX : 0 < X) by (apply pow2_pos; lia).
  assert (E1 : 2 ^ (e1 + e2 + k + 1100) * 2 ^ 1100 = X * 2 ^ k).
  { unfold X. rewrite <- !Z.pow_add_r by lia. f_equal. lia. }
  assert (E2 : 2 ^ (e1 + 1100) * 2 ^ (e2 + 1100) = X).
  { unfold X. rewrite <- !Z.pow_add_r by lia. f_equal. lia. }
  assert (HK : 0 < 2 ^ k) by (apply pow2_pos; lia).
  rewrite Pos2Z.inj_mul in Hup, Hlo.
  replace (Zpos m * 2 ^ (e1 + e2 + k + 1100) * 2 ^ 1100)
    with (Zpos m * (2 ^ (e1 + e2 + k + 1100) * 2 ^ 1100)) by ring.
  replace (Zpos m1 * 2 ^ (e1 + 1100) * (Zpos m2 * 2 ^ (e2 + 1100)))
    with (Zpos m1 * Zpos m2 * (2 ^ (e1 + 1100) * 2 ^ (e2 + 1100))) by ring.
  rewrite E1, E2.
  set (K := 2 ^ k) in *. clearbody K X.
  change (2 ^ 52) with 4503599627370496 in *.
  change (2 ^ 53) with 9007199254740992 in *.
  set (A := Zpos m * K) in *.
  set (N := Zpos m1 * Zpos m2) in *.
  assert (HKA : 4503599627370496 * K <= A) by (unfold A; nia).
  split.
  - replace (Zpos m * (X * K) * (9007199254740992 - 1))
      with (A * (9007199254740992 - 1) * X) by (unfold A; ring).
    replace (N * X * 9007199254740992)
      with (9007199254740992 * N * X) by ring.
    apply Z.mul_le_mono_nonneg_r; lia.
  - replace (Zpos m * (X * K) * (9007199254740992 + 1))
      with (A * (9007199254740992 + 1) * X) by (unfold A; ring).
    replace (N * X * 9007199254740992)
      with (9007199254740992 * N * X) by ring.
    apply Z.mul_le_mono_nonneg_r; lia.
Qed.

(** ** Truncation *)

Lemma float_to_int_scaled s m e :
  - bias <= e ->
  Py.float_to_int (S754_finite s m e)
  = Ok (cond_Zopp s (Zpos m * 2 ^ (e + bias) / 2 ^ bias)).
Proof.
  intros He. unfold Py.float_to_int, bias in *. do 2 f_equal.
  destruct (Z_le_gt_dec 0 e) as [Hpos | Hneg].
  - rewrite Z.shiftl_mul_pow2 by lia.
    rewrite Z.pow_add_r by lia.
    rewrite Z.mul_assoc, Z.div_mul; [reflexivity|].
    pose proof (pow2_pos 1100 ltac:(lia)). lia.
  - assert (Hs : Z.shiftl (Zpos m) e = Z.shiftr (Zpos m) (- e))
      by (unfold Z.shiftr; rewrite Z.opp_involutive; reflexivity).
    rewrite Hs, Z.shiftr_div_pow2 by lia.
    assert (E : 2 ^ 1100 = 2 ^ (- e) * 2 ^ (e + 1100)).
    { rewrite <- Z.pow_add_r by lia. f_equal. lia. }
    rewrite E.
    rewrite Z.div_mul_cancel_r; [reflexivity| |].
    + pose proof (pow2_pos (- e) ltac:(lia)). lia.
    + pose proof (pow2_pos (e + 1100) ltac:(lia)). lia.
Qed.

(** ** [int(n * r)] stays below a bound on [n * r]

    With [n * r <= B * (1 + 2 ^ -53)], the rounded product is below
    [B + 1], so that truncation gives at most [B]. *)
Lemma int_mul_trunc_bound (n B : Z) (mr : positive) (er : Z) :
  0 < n < 2 ^ 31 -> 0 < B < 2 ^ 31 ->
  2 ^ 52 <= Zpos mr < 2 ^ 53 -> -900 <= er <= 0 ->
  Zpos mr * 2 ^ (er + bias) * n * (2 ^ 53 - 1) <= B * 2 ^ 53 * 2 ^ bias ->
  exists k,
    Py.int_mul_trunc n (S754_finite false mr er) = Ok k /\ 0 <= k <= B.
Proof.
  intros Hn HB Hmr Her Hr.
  destruct (int_to_float_exact n Hn) as (mn & en & En & Hmn & Hen & Vn).
  destruct (float_mul_normal false mn en false mr er Hmn Hmr)
    as (m & e & Em & Hm & He & Vup & _); try lia.
  unfold Py.int_mul_trunc. rewrite En. cbn [rbind]. rewrite Em.
  cbn [xorb]. rewrite float_to_int_scaled by (unfold bias; lia).
  cbn [cond_Zopp]. eexists. split; [reflexivity|].
  rewrite Vn in Vup.
  pose proof (pow2_pos bias ltac:(unfold bias; lia)) as HT.
  assert (HR : 0 < 2 ^ (er + bias)) by (apply pow2_pos; unfold bias; lia).
  assert (HV : 0 < 2 ^ (e + bias)) by (apply pow2_pos; unfold bias; lia).
  set (T := 2 ^ bias) in *. set (R := Zpos mr * 2 ^ (er + bias)) in *.
  set (V := Zpos m * 2 ^ (e + bias)) in *.
  assert (HV0 : 0 <= V) by (unfold V; nia).
  assert (HR0 : 0 <= R) by (unfold R; nia).
  clearbody T R V.
  change (2 ^ 53) with 9007199254740992 in *.
  split; [apply Z.div_pos; lia|].
  apply Z.lt_succ_r. apply Z.div_lt_upper_bound; [exact HT|].
  destruct (Z_lt_le_dec V (T * Z.succ B)) as [|Hge]; [assumption|exfalso].
  (* cancel [T] in the bound of the product *)
  assert (V1 : V * (9007199254740992 - 1) <= n * R * 9007199254740992).
  { apply (Z.mul_le_mono_pos_r _ _ T HT). lia. }
  assert (V2 : V * 9007199254740991 * 9007199254740991
               <= B * 9007199254740992 * T * 9007199254740992) by nia.
  assert (V3 : T * (Z.succ B * 9007199254740991 * 9007199254740991)
               <= T * (B * 9007199254740992 * 9007199254740992)) by nia.
  apply Z.mul_le_mono_pos_l in V3; [lia | exact HT].
Qed.

(** ** A target size that is not positive

    Only signs matter here, so the operands are not bounded. *)

Lemma SFdiv_core_nonneg (m1 m2 : positive) (e1 e2 : Z) :
  0 <= fst (fst (SFdiv_core_binary Py.prec Py.emax (Zpos m1) e1 (Zpos m2) e2)).
Proof.
  unfold SFdiv_core_binary. rewrite div_eucl_div_mod. cbn [fst].
  apply Z.div_pos; [|lia].
  destruct (e1 - e2 - _) as [|s|s]; try lia.
  apply Z.shiftl_nonneg. lia.
Qed.

Lemma int_truediv_nonpos (a b : Z) :
  a <= 0 -> 0 < b -> overflow_or nonpos (Py.int_truediv a b).
Proof.
  intros Ha Hb. destruct b as [|pb|pb]; try lia.
  unfold Py.int_truediv. cbn [Z.eqb].
  destruct a as [|pa|pa]; try lia.
  - cbn. exact I.
  - cbn [Py.exact SFdiv xorb].
    pose proof (SFdiv_core_nonneg pa pb 0 0) as Hq.
    destruct (SFdiv_core_binary _ _ _ _ _ _) as [[mz ez] lz].
    cbn [fst] in Hq.
    pose proof (binary_round_aux_signed true mz ez lz Hq) as Hs.
    destruct (binary_round_aux _ _ _ _ _ _) as [s|s| |s m e];
      cbn in Hs |- *; subst; eauto; contradiction.
Qed.

Lemma int_to_float_nonneg (n : Z) :
  0 < n -> overflow_or nonneg (Py.int_to_float n).
Proof.
  intros Hn. destruct n as [|p|p]; try lia.
  unfold Py.int_to_float, binary_normalize, binary_round.
  destruct (shl_align _ _ _) as [mz ez].
  pose proof (binary_round_aux_signed false (Zpos mz) ez loc_Exact
                ltac:(lia)) as Hs.
  destruct (binary_round_aux _ _ _ _ _ _) as [s|s| |s m e];
    cbn in Hs |- *; subst; eauto; contradiction.
Qed.

Lemma int_mul_trunc_nonpos (n : Z) (r : spec_float) :
  0 < n -> nonpos r ->
  overflow_or (fun k => k <= 0) (Py.int_mul_trunc n r).
Proof.
  intros Hn Hr. unfold Py.int_mul_trunc.
  pose proof (int_to_float_nonneg n Hn) as Hf.
  destruct (Py.int_to_float n) as [x | e]; cbn [rbind overflow_or] in *;
    [|exact Hf].
  destruct x as [[|]|sx| |[|] mx ex]; cbn in Hf; try contradiction;
    destruct r as [sr|sr| |[|] mr er]; cbn in Hr; try contradiction.
  - cbn. lia.
  - cbn. lia.
  - cbn. lia.
  - unfold Py.float_mul. cbn [SFmul xorb].
    pose proof (binary_round_aux_signed true (Zpos (mx * mr)) (ex + er)
                  loc_Exact ltac:(lia)) as Hs.
    destruct (binary_round_aux _ _ _ _ _ _) as [s|s| |s m e];
      cbn [signed overflow_or Py.float_to_int cond_Zopp] in Hs |- *;
      subst; eauto; try contradiction; try lia.
    assert (0 <= Z.shiftl (Zpos m) e) by (apply Z.shiftl_nonneg; lia).
    cbn [cond_Zopp]. lia.
Qed.

(** [int(n * r)] is the floor of the rounded product, and the conversion
    of [n] is exact. *)
Lemma int_mul_trunc_floor (n : Z) (mr : positive) (er : Z) :
  0 < n < 2 ^ 31 -> 2 ^ 52 <= Zpos mr < 2 ^ 53 -> -900 <= er <= 0 ->
  exists fn,
    Py.int_to_float n = Ok fn /\ scaled fn = n * 2 ^ bias /\
    Py.int_mul_trunc n (S754_finite false mr er)
    = Ok (scaled (Py.float_mul fn (S754_finite false mr er)) / 2 ^ bias).
Proof.
  intros Hn Hmr Her.
  destruct (int_to_float_exact n Hn) as (mn & en & En & Hmn & Hen & Vn).
  destruct (float_mul_normal false mn en false mr er Hmn Hmr)
    as (m & e & Em & Hm & He & _); try lia.
  exists (S754_finite false mn en). split; [exact En|]. split; [exact Vn|].
  unfold Py.int_mul_trunc. rewrite En. cbn [rbind]. rewrite Em.
  cbn [xorb]. rewrite float_to_int_scaled by (unfold bias; lia).
  reflexivity.
Qed.

Lemma min_scaled_eq a b :
  normal false a -> normal false b ->
  scaled (Py.min a b) = Z.min (scaled a) (scaled b).
Proof.
  intros Ha Hb. unfold Py.min. rewrite (float_lt_scaled b a Hb Ha).
  destruct (Z.ltb_spec (scaled b) (scaled a)); lia.
Qed.

End Rounding.

(** * The scaled size *)

Section ScaledSize.

Import Rounding.

(** For image-sized operands the scaled size is computed without error
    and fits in the target square. *)
Lemma scaled_size_fits (w h S : Z) :
  0 < w < 2 ^ 31 -> 0 < h < 2 ^ 31 -> 0 < S < 2 ^ 31 ->
  exists nw nh,
    scaled_size w h S = Ok (nw, nh) /\ 0 <= nw <= S /\ 0 <= nh <= S.
Proof.
  intros Hw Hh HS.
  destruct (int_truediv_normal S w HS Hw)
    as (ma & ea & Ea & Hma & Hea & Ua & _).
  destruct (int_truediv_normal S h HS Hh)
    as (mb & eb & Eb & Hmb & Heb & Ub & _).
  assert (Na : normal false (S754_finite false ma ea))
    by (exists ma, ea; repeat split; lia).
  assert (Nb : normal false (S754_finite false mb eb))
    by (exists mb, eb; repeat split; lia).
  pose proof (min_scaled _ _ Na Nb) as [Mina Minb].
  unfold scaled_size, ratio. rewrite Ea, Eb. cbn [rbind].
  assert (HT : 0 < 2 ^ bias) by (apply pow2_pos; unfold bias; lia).
  assert (Hr : exists mr er,
             Py.min (S754_finite false ma ea) (S754_finite false mb eb)
             = S754_finite false mr er /\
             2 ^ 52 <= Zpos mr < 2 ^ 53 /\ -84 <= er <= -21).
  { destruct (min_cases (S754_finite false ma ea) (S754_finite false mb eb))
      as [-> | ->]; eauto 6. }
  destruct Hr as (mr & er & Er & Hmr & Her).
  rewrite Er in *. cbn [scaled cond_Zopp] in Mina, Minb.
  change (2 ^ 53) with 9007199254740992 in *.
  destruct (int_mul_trunc_bound w S mr er Hw HS) as (nw & Enw & Hnw);
    [assumption | lia | nia |].
  destruct (int_mul_trunc_bound h S mr er Hh HS) as (nh & Enh & Hnh);
    [assumption | lia | nia |].
  rewrite Enw. cbn [rbind]. rewrite Enh. cbn [rbind].
  exists nw, nh. auto.
Qed.

(** With a target size that is not positive the scaled size, when it is
    computed at all, is not positive either. *)
Lemma scaled_size_nonpos (w h S : Z) :
  0 < w -> 0 < h -> S <= 0 ->
  overflow_or (fun sz => fst sz <= 0 /\ snd sz <= 0) (scaled_size w h S).
Proof.
  intros Hw Hh HS. unfold scaled_size, ratio.
  pose proof (int_truediv_nonpos S w HS Hw) as Ha.
  destruct (Py.int_truediv S w) as [a | e]; cbn [rbind overflow_or] in *;
    [|exact Ha].
  pose proof (int_truediv_nonpos S h HS Hh) as Hb.
  destruct (Py.int_truediv S h) as [b | e]; cbn [rbind overflow_or] in *;
    [|exact Hb].
  assert (Hr : nonpos (Py.min a b))
    by (destruct (min_cases a b) as [-> | ->]; assumption).
  pose proof (int_mul_trunc_nonpos w _ Hw Hr) as Hnw.
  destruct (Py.int_mul_trunc w _) as [nw | e]; cbn [rbind overflow_or] in *;
    [|exact Hnw].
  pose proof (int_mul_trunc_nonpos h _ Hh Hr) as Hnh.
  destruct (Py.int_mul_trunc h _) as [nh | e]; cbn [rbind overflow_or] in *;
    [|exact Hnh].
  cbn. lia.
Qed.

(** C3: the ratio is the smaller of the two quotients [S / w] and
    [S / h] (each rounded to the nearest binary64 number), the scaled
    dimensions are the floors of the products [w * ratio] and
    [h * ratio], and neither exceeds the target size. *)
Theorem scaled_size_truncates_and_fits (w h S : Z) :
  0 < w < 2 ^ 31 -> 0 < h < 2 ^ 31 -> 0 < S < 2 ^ 31 ->
  exists qw qh fw fh nw nh,
    Py.int_truediv S w = Ok qw /\ Py.int_truediv S h = Ok qh /\
    scaled qw * w * (2 ^ 53 - 1) <= S * 2 ^ 53 * 2 ^ bias
      <= scaled qw * w * (2 ^ 53 + 1) /\
    scaled qh * h * (2 ^ 53 - 1) <= S * 2 ^ 53 * 2 ^ bias
      <= scaled qh * h * (2 ^ 53 + 1) /\
    ratio w h S = Ok (Py.min qw qh) /\
    scaled (Py.min qw qh) = Z.min (scaled qw) (scaled qh) /\
    Py.int_to_float w = Ok fw /\ scaled fw = w * 2 ^ bias /\
    Py.int_to_float h = Ok fh /\ scaled fh = h * 2 ^ bias /\
    scaled_size w h S = Ok (nw, nh) /\
    nw = scaled (Py.float_mul fw (Py.min qw qh)) / 2 ^ bias /\
    nh = scaled (Py.float_mul fh (Py.min qw qh)) / 2 ^ bias /\
    0 <= nw <= S /\ 0 <= nh <= S.
Proof.
  intros Hw Hh HS.
  destruct (int_truediv_normal S w HS Hw)
    as (ma & ea & Ea & Hma & Hea & Ua & La).
  destruct (int_truediv_normal S h HS Hh)
    as (mb & eb & Eb & Hmb & Heb & Ub & Lb).
  set (qw := S754_finite false ma ea) in *.
  set (qh := S754_finite false mb eb) in *.
  assert (Na : normal false qw) by (exists ma, ea; repeat split; lia).
  assert (Nb : normal false qh) by (exists mb, eb; repeat split; lia).
  assert (Hr : exists mr er,
             Py.min qw qh = S754_finite false mr er /\
             2 ^ 52 <= Zpos mr < 2 ^ 53 /\ -84 <= er <= -21).
  { destruct (min_cases qw qh) as [-> | ->]; unfold qw, qh; eauto 6. }
  destruct Hr as (mr & er & Er & Hmr & Her).
  destruct (int_mul_trunc_floor w mr er Hw Hmr ltac:(lia))
    as (fw & Efw & Vfw & Tw).
  destruct (int_mul_trunc_floor h mr er Hh Hmr ltac:(lia))
    as (fh & Efh & Vfh & Th).
  destruct (scaled_size_fits w h S Hw Hh HS) as (nw & nh & Es & Bw & Bh).
  exists qw, qh, fw, fh, nw, nh.
  assert (Eratio : ratio w h S = Ok (Py.min qw qh))
    by (unfold ratio; rewrite Ea, Eb; reflexivity).
  assert (Enw : nw = scaled (Py.float_mul fw (Py.min qw qh)) / 2 ^ bias
              /\ nh = scaled (Py.float_mul fh (Py.min qw qh)) / 2 ^ bias).
  { unfold scaled_size in Es. rewrite Eratio, Er in Es. cbn [rbind] in Es.
    rewrite Tw in Es. cbn [rbind] in Es. rewrite Th in Es. cbn [rbind] in Es.
    rewrite Er. injection Es as <- <-. split; reflexivity. }
  destruct Enw as [Enw Enh].
  repeat split; try assumption; try lia.
  apply min_scaled_eq; assumption.
Qed.

End ScaledSize.

(** * The transform [resize_with_padding] *)

Section Render.

Variable F : filters.

Lemma mode_convert (im : image) (m : string) : mode (convert F im m) = m.
Proof.
  unfold convert. destruct (String.eqb_spec (mode im) m); [assumption|].
  reflexivity.
Qed.

Lemma size_convert (im : image) (m : string) :
  width (convert F im m) = width im /\ height (convert F im m) = height im.
Proof. unfold convert. destruct (String.eqb (mode im) m); auto. Qed.

(** What [resize] returns has the size asked for and the mode of its
    source. *)
Lemma resize_ok (im resized : image) (w h : Z) :
  resize F im (w, h) = Ok resized ->
  width resized = w /\ height resized = h /\ mode resized = mode im.
Proof.
  unfold resize.
  destruct (Z.eqb_spec w (width im)); destruct (Z.eqb_spec h (height im));
    cbn [andb];
    try (intros [= <-]; auto; fail);
    destruct (negb _); try discriminate;
    destruct (_ || _); try discriminate;
    intros [= <-]; auto.
Qed.

(** The result of a successful call, pixel by pixel. *)
Lemma resize_with_padding_inv (img r : image) (S : Z) :
  resize_with_padding F img S = Ok r ->
  exists nw nh resized,
    scaled_size (width img) (height img) S = Ok (nw, nh) /\
    resize F (convert F img "RGBA") (nw, nh) = Ok resized /\
    width r = S /\ height r = S /\
    forall x y,
      getpixel r x y =
      if in_box (offset S nw) (offset S nh) nw nh x y then
        blend (alpha (getpixel resized (x - offset S nw) (y - offset S nh)))
              transparent
              (getpixel resized (x - offset S nw) (y - offset S nh))
      else transparent.
Proof.
  unfold resize_with_padding.
  destruct (size_convert img "RGBA") as [-> ->].
  destruct (scaled_size (width img) (height img) S) as [[nw nh] | e];
    cbn [rbind fst snd]; [|discriminate].
  destruct (resize F (convert F img "RGBA") (nw, nh)) as [resized | e] eqn:Er;
    cbn [rbind]; [|discriminate].
  destruct (resize_ok _ _ _ _ Er) as (Hw & Hh & Hm).
  rewrite mode_convert in Hm.
  unfold new. destruct (_ || _); [discriminate|].
  destruct (negb _); [discriminate|]. cbn [rbind].
  unfold paste, paste_source. rewrite !Z.eqb_refl. cbn [andb negb mode].
  rewrite Hm. cbn [String.eqb Ascii.eqb Bool.eqb].
  intros [= <-]. exists nw, nh, resized. cbn [width height getpixel].
  rewrite Hw, Hh. repeat split; first [reflexivity | exact Er].
Qed.

(** A call succeeds exactly when the scaled size is at least 1 by 1. *)
Lemma resize_with_padding_ok (img : image) (S nw nh : Z) :
  0 < width img -> 0 < height img ->
  scaled_size (width img) (height img) S = Ok (nw, nh) ->
  0 <= nw <= S -> 0 <= nh <= S -> S < 2 ^ 31 ->
  if (1 <=? nw) && (1 <=? nh)
  then exists r, resize_with_padding F img S = Ok r
  else resize_with_padding F img S
       = Raise (PyErr "ValueError" "height and width must be > 0").
Proof.
  intros Hwpos Hhpos Es Hnw Hnh HS. unfold resize_with_padding.
  destruct (size_convert img "RGBA") as [Ew Eh]. rewrite Ew, Eh, Es.
  cbn [rbind fst snd].
  assert (Hc : forall z, 0 <= z <= S -> c_int z = true).
  { intros z Hz. unfold c_int. apply andb_true_intro.
    split; [apply Z.leb_le | apply Z.ltb_lt]; lia. }
  assert (Hnew : exists canvas,
             new "RGBA" (S, S) transparent = Ok canvas /\
             mode canvas = "RGBA").
  { unfold new. destruct (Z.ltb_spec S 0); [lia|]. cbn [orb].
    rewrite (Hc S) by lia. cbn [andb negb]. eauto. }
  destruct Hnew as (canvas & Enew & Hmode).
  assert (Hpaste : forall resized,
             mode resized = "RGBA" ->
             exists r, paste F canvas resized (offset S nw, offset S nh) resized
                       = Ok r).
  { intros resized Hm. unfold paste. rewrite !Z.eqb_refl. cbn [andb negb].
    eauto. }
  destruct ((1 <=? nw) && (1 <=? nh)) eqn:Hpos.
  - apply andb_prop in Hpos as [H1 H2].
    apply Z.leb_le in H1. apply Z.leb_le in H2.
    assert (Hres : exists resized,
               resize F (convert F img "RGBA") (nw, nh) = Ok resized).
    { unfold resize. destruct (_ && _); [eauto|].
      rewrite (Hc nw), (Hc nh) by lia. cbn [andb negb].
      destruct (Z.ltb_spec nw 1); [lia|]. destruct (Z.ltb_spec nh 1); [lia|].
      cbn [orb]. eauto. }
    destruct Hres as (resized & Eres). rewrite Eres. cbn [rbind].
    rewrite Enew. cbn [rbind]. apply Hpaste.
    destruct (resize_ok _ _ _ _ Eres) as (_ & _ & Hm).
    rewrite Hm. apply mode_convert.
  - assert (Hlt : nw < 1 \/ nh < 1).
    { apply andb_false_iff in Hpos as [H | H]; apply Z.leb_gt in H; auto. }
    unfold resize. rewrite Ew, Eh.
    destruct (Z.eqb_spec nw (width img)); destruct (Z.eqb_spec nh (height img));
      cbn [andb]; try lia.
    all: rewrite (Hc nw), (Hc nh) by lia; cbn [andb negb].
    all: destruct (Z.ltb_spec nw 1); destruct (Z.ltb_spec nh 1);
      cbn [orb]; try lia; reflexivity.
Qed.

End Render.

(** * Properties of [resize_with_padding] *)

(** ** The blend of [paste] *)

(** Pillow's 8-bit division by 255 rounds to the nearest integer. *)
Lemma div255_rounds (a : Z) :
  0 <= a <= 255 * 255 -> - 127 <= 255 * div255 a - a <= 127.
Proof.
  intros Ha. unfold div255. cbv zeta.
  rewrite !Z.shiftr_div_pow2 by lia. change (2 ^ 8) with 256.
  pose proof (Z.div_mod (a + 128) 256 ltac:(lia)) as E1.
  pose proof (Z.mod_pos_bound (a + 128) 256 ltac:(lia)) as B1.
  remember ((a + 128) / 256) as q1 eqn:Eq1.
  remember ((a + 128) mod 256) as r1 eqn:Er1.
  pose proof (Z.div_mod (q1 + (a + 128)) 256 ltac:(lia)) as E2.
  pose proof (Z.mod_pos_bound (q1 + (a + 128)) 256 ltac:(lia)) as B2.
  remember ((q1 + (a + 128)) / 256) as q2 eqn:Eq2.
  remember ((q1 + (a + 128)) mod 256) as r2 eqn:Er2.
  clear Eq1 Er1 Eq2 Er2. lia.
Qed.

(** A band [v] blended into a transparent canvas through the mask value
    [a] becomes [v * a / 255], rounded to the nearest integer. *)
Lemma blend8_transparent (a v : Z) :
  0 <= a <= 255 -> 0 <= v <= 255 ->
  - 127 <= 255 * blend8 a 0 v - v * a <= 127 /\
  0 <= blend8 a 0 v <= v /\
  (a = 255 -> blend8 a 0 v = v) /\
  (a = 0 -> blend8 a 0 v = 0).
Proof.
  intros Ha Hv. unfold blend8.
  replace (0 * (255 - a) + v * a) with (v * a) by lia.
  assert (Hva : 0 <= v * a <= 255 * v) by nia.
  pose proof (div255_rounds (v * a) ltac:(nia)) as Hr.
  split; [lia|]. split; [lia|]. split.
  - intros ->. lia.
  - intros ->. rewrite Z.mul_0_r in *. lia.
Qed.

Section RenderProperties.

Import Rounding.

Variable F : filters.

(** For an image-sized source and target, the call either returns or is
    refused by [resize] because a scaled dimension was truncated to 0. *)
Lemma resize_with_padding_total (img : image) (S : Z) :
  0 < width img < 2 ^ 31 -> 0 < height img < 2 ^ 31 -> 0 < S < 2 ^ 31 ->
  exists nw nh,
    scaled_size (width img) (height img) S = Ok (nw, nh) /\
    0 <= nw <= S /\ 0 <= nh <= S /\
    if (1 <=? nw) && (1 <=? nh)
    then exists r, resize_with_padding F img S = Ok r
    else resize_with_padding F img S
         = Raise (PyErr "ValueError" "height and width must be > 0").
Proof.
  intros Hw Hh HS.
  destruct (scaled_size_fits _ _ _ Hw Hh HS) as (nw & nh & Es & Bw & Bh).
  exists nw, nh. repeat split; try assumption; try lia.
  apply resize_with_padding_ok; try assumption; lia.
Qed.

Lemma SIZES_range (S : Z) : In S SIZES -> 0 < S < 2 ^ 31.
Proof.
  unfold SIZES. cbn [In]. intros H.
  repeat (destruct H as [<- | H]; [lia|]). contradiction.
Qed.

(** C1: a 100 by 1 source at target size 16 has scaled height
    [int(1 * 0.16) = 0]; [resize] refuses the size and the call raises
    [ValueError], although both dimensions of the source are positive. *)
Theorem wide_source_raises (m : string) (px : Z -> Z -> pixel) :
  scaled_size 100 1 16 = Ok (16, 0) /\
  resize_with_padding F (Image m 100 1 px) 16
  = Raise (PyErr "ValueError" "height and width must be > 0").
Proof.
  assert (Es : scaled_size 100 1 16 = Ok (16, 0)) by (vm_compute; reflexivity).
  split; [exact Es|].
  pose proof (resize_with_padding_ok F (Image m 100 1 px) 16 16 0) as H.
  cbn [width height] in H.
  specialize (H ltac:(lia) ltac:(lia) Es ltac:(lia) ltac:(lia) ltac:(lia)).
  exact H.
Qed.

(** C2: for a source of positive dimensions and a target size of the
    fixed list, every image the call returns is exactly [S] by [S], and
    the call does return one whenever both scaled dimensions are at
    least 1. *)
Theorem result_is_square (img : image) (S : Z) :
  0 < width img < 2 ^ 31 -> 0 < height img < 2 ^ 31 -> In S SIZES ->
  (forall r, resize_with_padding F img S = Ok r ->
             width r = S /\ height r = S) /\
  exists nw nh,
    scaled_size (width img) (height img) S = Ok (nw, nh) /\
    (1 <= nw -> 1 <= nh ->
     exists r, resize_with_padding F img S = Ok r /\
               width r = S /\ height r = S).
Proof.
  intros Hw Hh HS. apply SIZES_range in HS.
  assert (Hsq : forall r, resize_with_padding F img S = Ok r ->
                          width r = S /\ height r = S).
  { intros r Hr.
    destruct (resize_with_padding_inv F img r S Hr)
      as (nw & nh & resized & _ & _ & Hrw & Hrh & _). auto. }
  split; [exact Hsq|].
  destruct (resize_with_padding_total img S Hw Hh HS)
    as (nw & nh & Es & Bw & Bh & Hres).
  exists nw, nh. split; [exact Es|]. intros H1 H2.
  apply Z.leb_le in H1. apply Z.leb_le in H2. rewrite H1, H2 in Hres.
  destruct Hres as [r Hr]. exists r. split; [exact Hr|]. apply Hsq, Hr.
Qed.

(** C4: the scaled content is pasted at the floor of half the free space
    on each axis: the pixel [(i, j)] of the content lands on the pixel
    [(x_offset + i, y_offset + j)] of the result, unchanged when it is
    opaque, and the margin before the content and the margin after it
    differ by at most one pixel. *)
Theorem content_is_centered (img r : image) (S : Z) :
  resize_with_padding F img S = Ok r ->
  exists nw nh resized,
    scaled_size (width img) (height img) S = Ok (nw, nh) /\
    resize F (convert F img "RGBA") (nw, nh) = Ok resized /\
    (forall i j,
        0 <= i < nw -> 0 <= j < nh ->
        let p := getpixel resized i j in
        0 <= red p <= 255 -> 0 <= green p <= 255 -> 0 <= blue p <= 255 ->
        alpha p = 255 ->
        getpixel r (offset S nw + i) (offset S nh + j) = p) /\
    (forall x y,
        in_box (offset S nw) (offset S nh) nw nh x y = true ->
        getpixel r x y =
        blend (alpha (getpixel resized (x - offset S nw) (y - offset S nh)))
              transparent
              (getpixel resized (x - offset S nw) (y - offset S nh))) /\
    2 * offset S nw <= S - nw < 2 * offset S nw + 2 /\
    2 * offset S nh <= S - nh < 2 * offset S nh + 2 /\
    0 <= (S - nw - offset S nw) - offset S nw <= 1 /\
    0 <= (S - nh - offset S nh) - offset S nh <= 1.
Proof.
  intros Hr.
  destruct (resize_with_padding_inv F img r S Hr)
    as (nw & nh & resized & Es & Eres & _ & _ & Hpx).
  exists nw, nh, resized. split; [exact Es|]. split; [exact Eres|].
  split.
  { intros i j Hi Hj p Hred Hgreen Hblue Halpha.
    assert (Hin : in_box (offset S nw) (offset S nh) nw nh
                    (offset S nw + i) (offset S nh + j) = true).
    { unfold in_box. rewrite !andb_true_iff.
      repeat split; [apply Z.leb_le | apply Z.ltb_lt
                     | apply Z.leb_le | apply Z.ltb_lt]; lia. }
    rewrite Hpx, Hin.
    replace (offset S nw + i - offset S nw) with i by lia.
    replace (offset S nh + j - offset S nh) with j by lia.
    fold p. unfold blend, transparent. cbn [red green blue alpha].
    assert (Ha : 0 <= alpha p <= 255) by lia.
    destruct (blend8_transparent (alpha p) (red p) Ha Hred)
      as (_ & _ & Er & _).
    destruct (blend8_transparent (alpha p) (green p) Ha Hgreen)
      as (_ & _ & Eg & _).
    destruct (blend8_transparent (alpha p) (blue p) Ha Hblue)
      as (_ & _ & Eb & _).
    destruct (blend8_transparent (alpha p) (alpha p) Ha Ha)
      as (_ & _ & Ea & _).
    rewrite (Er Halpha), (Eg Halpha), (Eb Halpha), (Ea Halpha).
    destruct p. reflexivity. }
  split.
  { intros x y Hin. rewrite Hpx, Hin. reflexivity. }
  unfold offset.
  pose proof (Z.div_mod (S - nw) 2 ltac:(lia)).
  pose proof (Z.mod_pos_bound (S - nw) 2 ltac:(lia)).
  pose proof (Z.div_mod (S - nh) 2 ltac:(lia)).
  pose proof (Z.mod_pos_bound (S - nh) 2 ltac:(lia)).
  lia.
Qed.

(** C5: every pixel of the result outside the footprint of the scaled
    content is fully transparent; a 100 by 50 source at target size 64 is
    scaled to 64 by 32 and pasted at x 0, y 16, so that rows 0-15 and
    48-63 are transparent. *)
Theorem padding_is_transparent :
  (forall img r S,
      resize_with_padding F img S = Ok r ->
      exists nw nh,
        scaled_size (width img) (height img) S = Ok (nw, nh) /\
        forall x y,
          in_box (offset S nw) (offset S nh) nw nh x y = false ->
          getpixel r x y = transparent /\ alpha (getpixel r x y) = 0) /\
  (forall m px,
      scaled_size 100 50 64 = Ok (64, 32) /\
      offset 64 64 = 0 /\ offset 64 32 = 16 /\
      exists r,
        resize_with_padding F (Image m 100 50 px) 64 = Ok r /\
        forall x y,
          0 <= y <= 15 \/ 48 <= y <= 63 ->
          alpha (getpixel r x y) = 0).
Proof.
  split.
  - intros img r S Hr.
    destruct (resize_with_padding_inv F img r S Hr)
      as (nw & nh & resized & Es & _ & _ & _ & Hpx).
    exists nw, nh. split; [exact Es|].
    intros x y Hout. rewrite Hpx, Hout. split; reflexivity.
  - intros m px.
    assert (Es : scaled_size 100 50 64 = Ok (64, 32))
      by (vm_compute; reflexivity).
    split; [exact Es|]. split; [reflexivity|]. split; [reflexivity|].
    pose proof (resize_with_padding_ok F (Image m 100 50 px) 64 64 32) as H.
    cbn [width height] in H.
    specialize (H ltac:(lia) ltac:(lia) Es ltac:(lia) ltac:(lia) ltac:(lia)).
    cbn in H. destruct H as [r Hr]. exists r. split; [exact Hr|].
    destruct (resize_with_padding_inv F _ r 64 Hr)
      as (nw & nh & resized & Es' & _ & _ & _ & Hpx).
    cbn [width height] in Es'. rewrite Es in Es'. injection Es' as <- <-.
    intros x y Hy. rewrite Hpx.
    change (offset 64 64) with 0. change (offset 64 32) with 16.
    assert (Hout : in_box 0 16 64 32 x y = false).
    { unfold in_box. destruct Hy.
      - replace (16 <=? y) with false by (symmetry; apply Z.leb_gt; lia).
        rewrite andb_false_r. reflexivity.
      - replace (y <? 16 + 32) with false by (symmetry; apply Z.ltb_ge; lia).
        apply andb_false_r. }
    rewrite Hout. reflexivity.
Qed.

(** C6: a 49 by 49 source at target size 16: [49 * (16 / 49)] is
    [15.999999999999998] in binary64 and truncates to 15, so the content
    is 15 by 15 and the last column and the last row of the icon are
    transparent padding. *)
Theorem square_source_is_padded (m : string) (px : Z -> Z -> pixel) :
  scaled_size 49 49 16 = Ok (15, 15) /\
  exists r,
    resize_with_padding F (Image m 49 49 px) 16 = Ok r /\
    (forall y, getpixel r 15 y = transparent) /\
    (forall x, getpixel r x 15 = transparent).
Proof.
  assert (Es : scaled_size 49 49 16 = Ok (15, 15)) by (vm_compute; reflexivity).
  split; [exact Es|].
  pose proof (resize_with_padding_ok F (Image m 49 49 px) 16 15 15) as H.
  cbn [width height] in H.
  specialize (H ltac:(lia) ltac:(lia) Es ltac:(lia) ltac:(lia) ltac:(lia)).
  cbn in H. destruct H as [r Hr]. exists r. split; [exact Hr|].
  destruct (resize_with_padding_inv F _ r 16 Hr)
    as (nw & nh & resized & Es' & _ & _ & _ & Hpx).
  cbn [width height] in Es'. rewrite Es in Es'. injection Es' as <- <-.
  change (offset 16 15) with 0 in Hpx.
  split.
  - intros y. rewrite Hpx. unfold in_box.
    replace (15 <? 0 + 15) with false by reflexivity.
    rewrite andb_false_r. reflexivity.
  - intros x. rewrite Hpx. unfold in_box.
    replace (15 <? 0 + 15) with false by reflexivity.
    rewrite andb_false_r. reflexivity.
Qed.

(** C8, as the code has it: with a target size that is not positive the
    call fails, with the [ValueError] of [resize] or, when a number is
    out of range, an [OverflowError]; the script defines no error of its
    own. *)
Theorem nonpositive_target_raises (img : image) (S : Z) :
  0 < width img -> 0 < height img -> S <= 0 ->
  raises_class "ValueError" (resize_with_padding F img S) \/
  raises_class "OverflowError" (resize_with_padding F img S).
Proof.
  intros Hw Hh HS. unfold resize_with_padding, raises_class.
  destruct (size_convert F img "RGBA") as [Ew Eh]. rewrite Ew, Eh.
  pose proof (scaled_size_nonpos _ _ _ Hw Hh HS) as Hs.
  destruct (scaled_size (width img) (height img) S) as [[nw nh] | e];
    cbn [overflow_or rbind fst snd] in *.
  - destruct Hs as [Hnw Hnh]. unfold resize. rewrite Ew, Eh.
    destruct (Z.eqb_spec nw (width img)); [lia|]. cbn [andb].
    destruct (negb _); cbn [rbind]; [right; eauto|].
    destruct (Z.ltb_spec nw 1); [|lia]. cbn [orb rbind]. left. eauto.
  - destruct Hs as [msg ->]. right. eauto.
Qed.

End RenderProperties.

(** * The script *)

Section ScriptProperties.

Variable F : filters.
Variable C : codec.
Variable E : host.

Lemma dirs_added_refl (m : gmap string node) : dirs_added m m.
Proof. intros p. left. reflexivity. Qed.

Lemma dirs_added_trans (m1 m2 m3 : gmap string node) :
  dirs_added m1 m2 -> dirs_added m2 m3 -> dirs_added m1 m3.
Proof.
  intros H12 H23 p. destruct (H12 p) as [E1 | [E1 E1']];
    destruct (H23 p) as [E2 | [E2 E2']]; try (left; congruence).
  - right. split; congruence.
  - right. split; congruence.
Qed.

Lemma mkdir_exist_ok_dirs (cls p : string) (w : world) :
  dirs_added (fs w) (fs (mkdir_exist_ok E cls p w).2) /\
  stdout (mkdir_exist_ok E cls p w).2 = stdout w.
Proof.
  unfold mkdir_exist_ok. destruct (fs w !! p) as [[c|]|] eqn:Ep; cbn.
  - split; [apply dirs_added_refl | reflexivity].
  - split; [apply dirs_added_refl | reflexivity].
  - destruct (mkdir_refused E p); cbn.
    { split; [apply dirs_added_refl | reflexivity]. }
    split; [|reflexivity]. intros q. destruct (decide (p = q)) as [<- | Hne].
    + right. rewrite lookup_insert_eq. auto.
    + left. apply lookup_insert_ne. exact Hne.
Qed.

Lemma mkdirs_dirs (ps : list string) :
  forall w, dirs_added (fs w) (fs (mkdirs E ps w).2) /\
            stdout (mkdirs E ps w).2 = stdout w.
Proof.
  induction ps as [|p ps IH]; intros w; cbn [mkdirs].
  - split; [apply dirs_added_refl | reflexivity].
  - unfold bind.
    pose proof (mkdir_exist_ok_dirs "NotADirectoryError" p w) as [H1 H1'].
    destruct (mkdir_exist_ok E "NotADirectoryError" p w) as [[[]|e] w1];
      cbn [snd] in *.
    + destruct (IH w1) as [H2 H2']. split; [|congruence].
      eapply dirs_added_trans; eassumption.
    + auto.
Qed.

(** [makedirs] only adds directories and prints nothing. *)
Lemma makedirs_dirs (name : string) (w : world) :
  dirs_added (fs w) (fs (makedirs E name w).2) /\
  stdout (makedirs E name w).2 = stdout w.
Proof.
  unfold makedirs. destruct (String.eqb name "").
  { split; [apply dirs_added_refl | reflexivity]. }
  assert (Hgo : dirs_added (fs w)
                  (fs ((mkdirs E (parents name) ;;;
                        mkdir_exist_ok E "FileExistsError" name) w).2) /\
                stdout ((mkdirs E (parents name) ;;;
                         mkdir_exist_ok E "FileExistsError" name) w).2
                = stdout w).
  { unfold bind. destruct (mkdirs_dirs (parents name) w) as [H1 H1'].
    destruct (mkdirs E (parents name) w) as [[[]|e] w1]; cbn [snd] in *.
    - destruct (mkdir_exist_ok_dirs "FileExistsError" name w1) as [H2 H2'].
      split; [|congruence]. eapply dirs_added_trans; eassumption.
    - auto. }
  destruct (fs w !! name) as [[c|]|]; try exact Hgo.
  split; [apply dirs_added_refl | reflexivity].
Qed.


Lemma world_eta (w : world) : World (fs w) (stdout w) = w.
Proof. destruct w; reflexivity. Qed.

(** ** Paths *)

Lemma string_length_app (a b : string) :
  String.length (a ++ b) = (String.length a + String.length b)%nat.
Proof.
  induction a as [|c a IH]; [reflexivity|].
  change (String c a ++ b)%string with (String c (a ++ b)).
  cbn [String.length Nat.add]. f_equal. exact IH.
Qed.

(** An ancestor is strictly shorter than the path. *)
Lemma parents_from_shorter (s : string) :
  forall pre p,
    In p (parents_from pre s) ->
    (String.length p < String.length pre + String.length s)%nat.
Proof.
  induction s as [|c s IH]; intros pre p Hin; cbn in Hin; [contradiction|].
  apply in_app_or in Hin. destruct Hin as [Hin | Hin].
  - destruct (Ascii.eqb c "/" && negb (String.eqb pre "")); cbn in Hin;
      [|contradiction].
    destruct Hin as [<- | []]. cbn. lia.
  - apply IH in Hin. rewrite string_length_app in Hin. cbn in *. lia.
Qed.

Lemma parents_shorter (name p : string) :
  In p (parents name) -> (String.length p < String.length name)%nat.
Proof. intros H. apply parents_from_shorter in H. cbn in H. exact H. Qed.

(** An icon path is strictly longer than the output directory. *)
Lemma output_path_longer (out : string) (S : Z) :
  (String.length out < String.length (output_path out S))%nat.
Proof.
  unfold output_path, path_join.
  replace (starts_with_sep ("icon-" ++ Py.str S ++ ".png")) with false
    by reflexivity.
  destruct (String.eqb out "" || ends_with_sep out);
    rewrite !string_length_app; cbn [String.length]; lia.
Qed.

Lemma output_path_not_made (out : string) (S : Z) :
  output_path out S <> out /\ ~ In (output_path out S) (parents out).
Proof.
  pose proof (output_path_longer out S) as Hl. split.
  - intros Ep. rewrite Ep in Hl. lia.
  - intros Hin. apply parents_shorter in Hin. lia.
Qed.

(** ** [makedirs] *)

Lemma mkdir_exist_ok_other (cls p q : string) (w : world) :
  q <> p -> fs (mkdir_exist_ok E cls p w).2 !! q = fs w !! q.
Proof.
  intros Hne. unfold mkdir_exist_ok.
  destruct (fs w !! p) as [[c|]|]; cbn; try reflexivity.
  destruct (mkdir_refused E p); cbn; [reflexivity|].
  apply lookup_insert_ne. congruence.
Qed.

Lemma mkdirs_other (ps : list string) (q : string) :
  forall w, ~ In q ps -> fs (mkdirs E ps w).2 !! q = fs w !! q.
Proof.
  induction ps as [|p ps IH]; intros w Hq; [reflexivity|].
  cbn [mkdirs]. unfold bind.
  pose proof (mkdir_exist_ok_other "NotADirectoryError" p q w) as H1.
  destruct (mkdir_exist_ok E "NotADirectoryError" p w) as [[[]|e] w1];
    cbn [snd] in *.
  - rewrite IH; [apply H1|]; intros Ep; apply Hq; [left | right]; auto.
  - apply H1. intros Ep. apply Hq. left. auto.
Qed.

(** [makedirs] changes nothing but the directory and its ancestors. *)
Lemma makedirs_other (name q : string) (w : world) :
  q <> name -> ~ In q (parents name) ->
  fs (makedirs E name w).2 !! q = fs w !! q.
Proof.
  intros Hne Hq. unfold makedirs.
  destruct (String.eqb name ""); [reflexivity|].
  assert (Hgo : fs ((mkdirs E (parents name) ;;;
                     mkdir_exist_ok E "FileExistsError" name) w).2 !! q
                = fs w !! q).
  { unfold bind. pose proof (mkdirs_other (parents name) q w Hq) as H1.
    destruct (mkdirs E (parents name) w) as [[[]|e] w1]; cbn [snd] in *;
      [|exact H1].
    rewrite mkdir_exist_ok_other by exact Hne. exact H1. }
  destruct (fs w !! name) as [[c|]|]; try exact Hgo. reflexivity.
Qed.

(** One directory is made, or accepted, exactly when [can_mkdir] says
    so; then it is there, and what can be made is as before. *)
Lemma mkdir_exist_ok_spec (cls p : string) (w : world) :
  if can_mkdir E (fs w) p
  then (mkdir_exist_ok E cls p w).1 = Ok tt /\
       fs (mkdir_exist_ok E cls p w).2 !! p = Some Dir /\
       forall q, can_mkdir E (fs (mkdir_exist_ok E cls p w).2) q
                 = can_mkdir E (fs w) q
  else (mkdir_exist_ok E cls p w).1 <> Ok tt.
Proof.
  unfold can_mkdir at 1, mkdir_exist_ok.
  destruct (fs w !! p) as [[c|]|] eqn:Ep; cbn [fst snd].
  - discriminate.
  - auto.
  - destruct (mkdir_refused E p) eqn:Hp; cbn [permits fst snd fs];
      [discriminate|].
    split; [reflexivity|]. split; [apply lookup_insert_eq|].
    intros q. unfold can_mkdir. destruct (decide (p = q)) as [<- | Hne].
    + rewrite lookup_insert_eq, Ep, Hp. reflexivity.
    + rewrite lookup_insert_ne by exact Hne. reflexivity.
Qed.

Lemma forallb_same {A} (f g : A -> bool) (l : list A) :
  (forall a, f a = g a) -> forallb f l = forallb g l.
Proof.
  intros H. induction l as [|a l IH]; [reflexivity|].
  cbn [forallb]. rewrite H, IH. reflexivity.
Qed.

Lemma mkdirs_spec (ps : list string) :
  forall w,
    if forallb (can_mkdir E (fs w)) ps
    then (mkdirs E ps w).1 = Ok tt /\
         forall q, can_mkdir E (fs (mkdirs E ps w).2) q = can_mkdir E (fs w) q
    else (mkdirs E ps w).1 <> Ok tt.
Proof.
  induction ps as [|p ps IH]; intros w; cbn [forallb mkdirs]; [cbn; auto|].
  unfold bind.
  pose proof (mkdir_exist_ok_spec "NotADirectoryError" p w) as Hp.
  destruct (can_mkdir E (fs w) p); cbn [andb].
  - destruct Hp as (Hok & _ & Hsame).
    destruct (mkdir_exist_ok E "NotADirectoryError" p w) as [[[]|e] w1];
      cbn [fst snd] in *; [|discriminate].
    specialize (IH w1).
    replace (forallb (can_mkdir E (fs w)) ps)
      with (forallb (can_mkdir E (fs w1)) ps)
      by (apply forallb_same; exact Hsame).
    destruct (forallb (can_mkdir E (fs w1)) ps); [|exact IH].
    destruct IH as [IH1 IH2]. split; [exact IH1|].
    intros q. rewrite IH2. apply Hsame.
  - destruct (mkdir_exist_ok E "NotADirectoryError" p w) as [[[]|e] w1];
      cbn [fst] in *; [congruence | discriminate].
Qed.

(** [makedirs] succeeds exactly when [can_makedirs] says so, and then the
    directory exists. *)
Lemma makedirs_spec (name : string) (w : world) :
  if can_makedirs E (fs w) name
  then (makedirs E name w).1 = Ok tt /\
       fs (makedirs E name w).2 !! name = Some Dir
  else (makedirs E name w).1 <> Ok tt.
Proof.
  unfold can_makedirs, makedirs.
  destruct (String.eqb name ""); cbn [negb andb]; [cbn; discriminate|].
  assert (Hgo :
    if forallb (can_mkdir E (fs w)) (parents name) && can_mkdir E (fs w) name
    then ((mkdirs E (parents name) ;;;
           mkdir_exist_ok E "FileExistsError" name) w).1 = Ok tt /\
         fs ((mkdirs E (parents name) ;;;
              mkdir_exist_ok E "FileExistsError" name) w).2 !! name
         = Some Dir
    else ((mkdirs E (parents name) ;;;
           mkdir_exist_ok E "FileExistsError" name) w).1 <> Ok tt).
  { unfold bind. pose proof (mkdirs_spec (parents name) w) as Hps.
    destruct (forallb (can_mkdir E (fs w)) (parents name)); cbn [andb].
    - destruct Hps as [Hok Hsame].
      destruct (mkdirs E (parents name) w) as [[[]|e] w1];
        cbn [fst snd] in *; [|discriminate].
      pose proof (mkdir_exist_ok_spec "FileExistsError" name w1) as Hn.
      rewrite Hsame in Hn.
      destruct (can_mkdir E (fs w) name); [tauto | exact Hn].
    - destruct (mkdirs E (parents name) w) as [[[]|e] w1];
        cbn [fst] in *; [congruence | discriminate]. }
  destruct (fs w !! name) as [[c|]|] eqn:En; cbn [is_dir orb].
  - exact Hgo.
  - cbn. auto.
  - exact Hgo.
Qed.

Lemma makedirs_ok (name : string) (w : world) :
  can_makedirs E (fs w) name = true ->
  (makedirs E name w).1 = Ok tt /\ fs (makedirs E name w).2 !! name = Some Dir.
Proof.
  intros Hcan. pose proof (makedirs_spec name w) as H.
  rewrite Hcan in H. exact H.
Qed.

Lemma makedirs_fails (name : string) (w : world) :
  can_makedirs E (fs w) name = false -> (makedirs E name w).1 <> Ok tt.
Proof.
  intros Hcan. pose proof (makedirs_spec name w) as H.
  rewrite Hcan in H. exact H.
Qed.


(** After [makedirs] the source and the icon paths are as before. *)
Lemma makedirs_keeps (name : string) (w : world) :
  (forall p n, fs w !! p = Some n -> fs (makedirs E name w).2 !! p = Some n) /\
  (forall S, fs (makedirs E name w).2 !! output_path name S
             = fs w !! output_path name S).
Proof.
  destruct (makedirs_dirs name w) as [Hd _]. split.
  - intros p n Hp. destruct (Hd p) as [Ep | [Ep _]]; congruence.
  - intros S. destruct (output_path_not_made name S) as [H1 H2].
    apply makedirs_other; assumption.
Qed.

(** ** What the console takes *)

Lemma is_ascii_app (a b : string) :
  is_ascii (a ++ b) = is_ascii a && is_ascii b.
Proof.
  induction a as [|c a IH]; [reflexivity|].
  change (String c a ++ b)%string with (String c (a ++ b)).
  cbn [is_ascii]. rewrite IH, andb_assoc. reflexivity.
Qed.

Lemma utf8_run_app (a b : string) :
  forall s,
    utf8_run s (a ++ b) =
    match utf8_run s a with
    | Some s' => utf8_run s' b
    | None => None
    end.
Proof.
  induction a as [|c a IH]; intros s; [reflexivity|].
  change (String c a ++ b)%string with (String c (a ++ b)).
  cbn [utf8_run]. destruct (utf8_step s (N_of_ascii c)); [apply IH|reflexivity].
Qed.

(** An ASCII byte is a character of its own, and nothing else. *)
Lemma utf8_step_ascii (s : utf8_state) (b : N) :
  (b <? 128)%N = true ->
  utf8_step s b = match s with Whole => Some Whole | _ => None end.
Proof.
  intros Hb. apply N.ltb_lt in Hb.
  assert (Hno : forall lo hi, (128 <= lo)%N -> between lo hi b = false).
  { intros lo hi Hlo. unfold between.
    replace (lo <=? b)%N with false by (symmetry; apply N.leb_gt; lia).
    reflexivity. }
  destruct s; cbn [utf8_step];
    rewrite ?Hno by lia; try reflexivity.
  replace (b <? 128)%N with true by (symmetry; apply N.ltb_lt; lia).
  reflexivity.
Qed.

Lemma utf8_run_ascii (t : string) :
  is_ascii t = true -> t <> "" ->
  forall s, utf8_run s t = match s with Whole => Some Whole | _ => None end.
Proof.
  induction t as [|c t IH]; intros Ht Hne s; [congruence|].
  cbn [is_ascii] in Ht. apply andb_prop in Ht as [Hc Ht].
  cbn [utf8_run]. rewrite (utf8_step_ascii s _ Hc).
  destruct s; try reflexivity.
  destruct t as [|c' t']; [reflexivity|].
  apply (IH Ht); discriminate.
Qed.

(** A line put together from valid text, a path and a tail of ASCII is
    valid exactly when the path is. *)
Lemma valid_utf8_framed (pre path tail : string) :
  valid_utf8 pre = true -> is_ascii tail = true -> tail <> "" ->
  valid_utf8 (pre ++ path ++ tail) = valid_utf8 path.
Proof.
  intros Hpre Htail Hne. unfold valid_utf8 in *.
  rewrite utf8_run_app.
  destruct (utf8_run Whole pre) as [[]|]; try discriminate.
  rewrite utf8_run_app.
  destruct (utf8_run Whole path) as [s|]; [|reflexivity].
  rewrite (utf8_run_ascii tail Htail Hne). destruct s; reflexivity.
Qed.

(** A confirmation line is the emoji, the output directory and an ASCII
    tail. *)
Lemma confirmation_framed (out : string) (S : Z) :
  In S SIZES ->
  exists tail,
    confirmation out S = ("✅ Generated " ++ out ++ tail)%string /\
    is_ascii tail = true /\ tail <> "".
Proof.
  intros HS. unfold confirmation, output_path, path_join.
  replace (starts_with_sep ("icon-" ++ Py.str S ++ ".png")) with false
    by reflexivity.
  unfold SIZES in HS. cbn [In] in HS.
  destruct (String.eqb out "" || ends_with_sep out);
    repeat (destruct HS as [<- | HS];
            [eexists; split; [reflexivity|];
             split; [vm_compute; reflexivity | discriminate]|]);
    contradiction.
Qed.

Lemma confirmation_not_ascii (out : string) (S : Z) :
  is_ascii (confirmation out S) = false.
Proof. unfold confirmation. rewrite is_ascii_app. reflexivity. Qed.

(** The console takes the confirmation of one size exactly when it takes
    that of another. *)
Lemma printable_confirmation_same (out : string) (S S' : Z) :
  In S SIZES -> In S' SIZES ->
  printable E (confirmation out S) = printable E (confirmation out S').
Proof.
  intros HS HS'. unfold printable. rewrite !confirmation_not_ascii.
  destruct (confirmation_framed out S HS) as (t & -> & Ht & Hne).
  destruct (confirmation_framed out S' HS') as (t' & -> & Ht' & Hne').
  rewrite !valid_utf8_framed by (assumption || reflexivity). reflexivity.
Qed.

(** A console that takes a confirmation line takes the closing line. *)
Lemma printable_all_done (out : string) (S : Z) :
  printable E (confirmation out S) = true -> printable E all_done = true.
Proof.
  unfold printable. rewrite confirmation_not_ascii. cbn [orb].
  destruct (stdout_encoding E) as [|strict]; [discriminate|]. intros _.
  replace (valid_utf8 all_done) with true by (vm_compute; reflexivity).
  rewrite !orb_true_r. reflexivity.
Qed.

(** ** The loop *)

Lemma write_icons_cons (img : image) (out : string) (S : Z) (done : list Z)
  (m : gmap string node) :
  write_icons F C img out (S :: done) m
  = write_icons F C img out done
      (<[output_path out S := File (icon_bytes F C img S)]> m).
Proof. reflexivity. Qed.

(** One turn of the loop. *)
Lemma icons_loop_step (img : image) (out : string) (S : Z) (rest : list Z)
  (w : world) :
  icons_loop F C E (Ok img) out (S :: rest) w =
  match resize_with_padding F img S with
  | Raise e => (Raise e, w)
  | Ok square =>
      if is_dir (fs w !! output_path out S)
      then (Raise (os_error E "IsADirectoryError" (output_path out S)), w)
      else
        match write_refused E (output_path out S) with
        | Some refusal => (Raise (os_error E refusal (output_path out S)), w)
        | None =>
            if printable E (confirmation out S)
            then icons_loop F C E (Ok img) out rest
                   (World (<[output_path out S := File (encode_png C square)]>
                             (fs w))
                          (stdout w ++ [confirmation out S]))
            else (Raise (os_error E "UnicodeEncodeError" (confirmation out S)),
                  World (<[output_path out S := File (encode_png C square)]>
                           (fs w))
                        (stdout w))
        end
  end.
Proof.
  cbn [icons_loop]. unfold bind, lift, save, print. cbn [rbind].
  destruct (resize_with_padding F img S) as [square | e]; [|reflexivity].
  destruct (fs w !! output_path out S) as [[c|]|]; cbn [is_dir];
    try reflexivity;
    destruct (write_refused E (output_path out S)); try reflexivity;
    destruct (printable E (confirmation out S)); reflexivity.
Qed.

(** ** The transform raises only ordinary exceptions, never [SystemExit] *)

Lemma ordinary_bind {A B} (r : result A) (k : A -> result B) :
  ordinary r -> (forall a, ordinary (k a)) -> ordinary (rbind r k).
Proof.
  intros Hr Hk e. destruct r as [a | e']; cbn [rbind].
  - apply Hk.
  - intros [= <-]. apply Hr. reflexivity.
Qed.

Lemma ordinary_Ok {A} (a : A) : ordinary (Ok a).
Proof. intros e. discriminate. Qed.

Lemma ordinary_PyErr {A} (cls msg : string) :
  ordinary (@Raise A (PyErr cls msg)).
Proof. intros e [= <-]. eauto. Qed.

Lemma ordinary_os_error {A} (cls subject : string) :
  ordinary (@Raise A (os_error E cls subject)).
Proof. apply ordinary_PyErr. Qed.

Local Hint Resolve ordinary_Ok ordinary_PyErr ordinary_os_error : core.

Lemma ordinary_int_truediv (a b : Z) : ordinary (Py.int_truediv a b).
Proof.
  unfold Py.int_truediv. destruct (b =? 0); [auto|].
  destruct (SFdiv _ _ _ _); auto.
Qed.

Lemma ordinary_int_mul_trunc (n : Z) (x : Py.float) :
  ordinary (Py.int_mul_trunc n x).
Proof.
  unfold Py.int_mul_trunc. apply ordinary_bind.
  - unfold Py.int_to_float. destruct (binary_normalize _ _ _ _ _); auto.
  - intros f. unfold Py.float_to_int. destruct (Py.float_mul f x); auto.
Qed.

Lemma ordinary_resize_with_padding (img : image) (S : Z) :
  ordinary (resize_with_padding F img S).
Proof.
  unfold resize_with_padding. apply ordinary_bind.
  { unfold scaled_size. apply ordinary_bind.
    - unfold ratio. apply ordinary_bind; [apply ordinary_int_truediv|].
      intros a. apply ordinary_bind; [apply ordinary_int_truediv | auto].
    - intros r. apply ordinary_bind; [apply ordinary_int_mul_trunc|].
      intros nw. apply ordinary_bind; [apply ordinary_int_mul_trunc | auto]. }
  intros sz. apply ordinary_bind.
  { unfold resize. destruct (_ && _); [auto|].
    destruct (negb _); [auto|]. destruct (_ || _); auto. }
  intros resized. apply ordinary_bind.
  { unfold new. destruct (_ || _); [auto|]. destruct (negb _); auto. }
  intros canvas. unfold paste. destruct (negb _); auto.
Qed.

(** The loop writes the icons of a prefix of its sizes, in order, and
    prints their confirmations; the last icon written has no confirmation
    when the console refuses the line.  The loop ends normally exactly
    when every confirmation is printed. *)
Lemma icons_loop_prefix (img : image) (out : string) (sizes : list Z) :
  forall w,
  exists written printed,
    written `prefix_of` sizes /\
    (printed = written \/
     exists S, written = printed ++ [S] /\
               printable E (confirmation out S) = false) /\
    (forall S, In S printed -> printable E (confirmation out S) = true) /\
    (icons_loop F C E (Ok img) out sizes w).2
    = World (write_icons F C img out written (fs w))
            (stdout w ++ confirmations out printed) /\
    ((icons_loop F C E (Ok img) out sizes w).1 = Ok tt <-> printed = sizes) /\
    ordinary (icons_loop F C E (Ok img) out sizes w).1.
Proof.
  induction sizes as [|S rest IH]; intros w.
  { exists [], []. cbn. rewrite app_nil_r, world_eta.
    split; [apply prefix_nil|]. split; [left; reflexivity|].
    split; [intros S []|]. split; [reflexivity|].
    split; [split; reflexivity|]. apply ordinary_Ok. }
  assert (Hnone : forall e : exn,
             (exists cls msg, e = PyErr cls msg) ->
             exists written printed : list Z,
               written `prefix_of` S :: rest /\
               (printed = written \/
                exists S0, written = printed ++ [S0] /\
                           printable E (confirmation out S0) = false) /\
               (forall S0, In S0 printed ->
                           printable E (confirmation out S0) = true) /\
               (@Raise unit e, w).2
               = World (write_icons F C img out written (fs w))
                       (stdout w ++ confirmations out printed) /\
               ((@Raise unit e, w).1 = Ok tt <-> printed = S :: rest) /\
               ordinary (@Raise unit e, w).1).
  { intros e He. exists [], []. cbn. rewrite app_nil_r, world_eta.
    split; [apply prefix_nil|]. split; [left; reflexivity|].
    split; [intros S0 []|]. split; [reflexivity|].
    split; [split; discriminate|].
    intros e' [= <-]. exact He. }
  rewrite icons_loop_step.
  destruct (resize_with_padding F img S) as [square | e] eqn:Er.
  2:{ apply Hnone. exact (ordinary_resize_with_padding img S e Er). }
  destruct (is_dir (fs w !! output_path out S)).
  { apply Hnone. unfold os_error. eauto. }
  destruct (write_refused E (output_path out S)) as [refusal|].
  { apply Hnone. unfold os_error. eauto. }
  assert (Eb : File (encode_png C square) = File (icon_bytes F C img S)).
  { unfold icon_bytes. rewrite Er. reflexivity. }
  destruct (printable E (confirmation out S)) eqn:Hp.
  - match goal with |- context [icons_loop F C E (Ok img) out rest ?w1] =>
      destruct (IH w1) as (written & printed & Hpre & Hlag & Hpr & Hw & Hok & Ho)
    end.
    exists (S :: written), (S :: printed).
    split; [apply prefix_cons; exact Hpre|].
    split.
    { destruct Hlag as [-> | (S0 & -> & H0)]; [left; reflexivity|].
      right. exists S0. split; [reflexivity | exact H0]. }
    split.
    { intros S0 [<- | H0]; [exact Hp | apply Hpr; exact H0]. }
    split.
    { rewrite Hw, write_icons_cons, Eb. cbn [fs stdout confirmations map].
      rewrite <- app_assoc. reflexivity. }
    split; [|exact Ho].
    rewrite Hok. split; [congruence | intros [= ->]; reflexivity].
  - exists [S], []. split; [apply prefix_cons, prefix_nil|].
    split; [right; exists S; split; [reflexivity | exact Hp]|].
    split; [intros S0 []|].
    split.
    { cbn [snd]. rewrite Eb. cbn. rewrite app_nil_r. reflexivity. }
    split; [split; discriminate|].
    cbn [fst]. apply ordinary_os_error.
Qed.

(** When every size can be rendered, every icon path can be written and
    the console takes every confirmation, the loop writes all the
    icons. *)
Lemma icons_loop_ok (img : image) (out : string) (sizes : list Z) :
  forall w,
    forallb (fun S => succeeds (resize_with_padding F img S)) sizes = true ->
    forallb (fun S => can_write E (fs w) (output_path out S)) sizes = true ->
    forallb (fun S => printable E (confirmation out S)) sizes = true ->
    icons_loop F C E (Ok img) out sizes w
    = (Ok tt, World (write_icons F C img out sizes (fs w))
                    (stdout w ++ confirmations out sizes)).
Proof.
  induction sizes as [|S rest IH]; intros w Hr Hd Hp.
  - cbn. rewrite app_nil_r, world_eta. reflexivity.
  - cbn [forallb] in Hr, Hd, Hp.
    apply andb_prop in Hr as [Hr1 Hr2]. apply andb_prop in Hd as [Hd1 Hd2].
    apply andb_prop in Hp as [Hp1 Hp2].
    rewrite icons_loop_step.
    destruct (resize_with_padding F img S) as [square | e] eqn:Er;
      [|discriminate].
    unfold can_write in Hd1. apply andb_prop in Hd1 as [Hd1 Hd1'].
    apply negb_true_iff in Hd1. rewrite Hd1.
    destruct (write_refused E (output_path out S)); [discriminate|].
    rewrite Hp1.
    rewrite IH; [|exact Hr2| |exact Hp2].
    + rewrite write_icons_cons. unfold icon_bytes. rewrite Er.
      cbn [fs stdout confirmations map]. rewrite <- app_assoc. reflexivity.
    + cbn [fs]. apply forallb_forall. intros S' HS'.
      rewrite forallb_forall in Hd2. specialize (Hd2 S' HS').
      unfold can_write in *.
      destruct (decide (output_path out S = output_path out S')) as [Ep | Ep].
      * rewrite <- Ep, lookup_insert_eq. rewrite <- Ep in Hd2.
        apply andb_prop in Hd2 as [_ ->]. reflexivity.
      * rewrite lookup_insert_ne by exact Ep. exact Hd2.
Qed.


Lemma write_icons_other (img : image) (out : string) (p : string)
  (done : list Z) :
  forall m,
    (forall S, In S done -> p <> output_path out S) ->
    write_icons F C img out done m !! p = m !! p.
Proof.
  induction done as [|S done IH]; intros m Hp; [reflexivity|].
  rewrite write_icons_cons, IH.
  - apply lookup_insert_ne. intros Ep. apply (Hp S); [left; reflexivity|].
    symmetry. exact Ep.
  - intros S' HS'. apply Hp. right. exact HS'.
Qed.

Lemma write_icons_in (img : image) (out : string) (S : Z) (done : list Z) :
  (forall S', In S' done -> output_path out S' = output_path out S -> S' = S) ->
  forall m,
    In S done ->
    write_icons F C img out done m !! output_path out S
    = Some (File (icon_bytes F C img S)).
Proof.
  intros Hinj. induction done as [|S0 done IH]; intros m HS; [contradiction|].
  rewrite write_icons_cons.
  destruct (in_dec Z.eq_dec S done) as [Hin | Hout].
  - apply IH; [|exact Hin]. intros S' HS'. apply Hinj. right. exact HS'.
  - destruct HS as [-> | HS]; [|contradiction].
    rewrite write_icons_other.
    + apply lookup_insert_eq.
    + intros S' HS' Ep. apply Hout.
      rewrite <- (Hinj S' (or_intror HS') (eq_sym Ep)). exact HS'.
Qed.

Lemma string_app_inv_head (a b c : string) :
  (a ++ b)%string = (a ++ c)%string -> b = c.
Proof.
  induction a as [|ch a IH]; cbn; [auto|]. intros [= H]. auto.
Qed.

(** The six icons have six different paths. *)
Lemma output_path_inj (out : string) (S1 S2 : Z) :
  In S1 SIZES -> In S2 SIZES ->
  output_path out S1 = output_path out S2 -> S1 = S2.
Proof.
  unfold output_path, path_join, SIZES. cbn [In].
  intros H1 H2.
  repeat (destruct H1 as [<- | H1]); try contradiction;
    repeat (destruct H2 as [<- | H2]); try contradiction;
    try reflexivity;
    cbn [starts_with_sep Py.str];
    intros Ep; exfalso;
    destruct (String.eqb out "" || ends_with_sep out);
    apply string_app_inv_head in Ep; vm_compute in Ep; discriminate.
Qed.

Lemma prefix_In (done sizes : list Z) (S : Z) :
  done `prefix_of` sizes -> In S done -> In S sizes.
Proof. intros [k ->] H. apply in_or_app. left. exact H. Qed.

(** ** A run, step by step *)

Lemma generate_icons_eq (src out : string) (w : world) :
  generate_icons F C E src out w =
  match fs w !! src with
  | None =>
      if printable E (not_found src)
      then (Raise (SystemExit 1), World (fs w) (stdout w ++ [not_found src]))
      else (Raise (os_error E "UnicodeEncodeError" (not_found src)), w)
  | Some _ =>
      match makedirs E out w with
      | (Raise e, w1) => (Raise e, w1)
      | (Ok _, w1) =>
          match image_open C E src w1 with
          | (Raise e, w2) => (Raise e, w2)
          | (Ok img, w2) =>
              match icons_loop F C E img out SIZES w2 with
              | (Raise e, w3) => (Raise e, w3)
              | (Ok _, w3) =>
                  if printable E all_done
                  then (Ok tt, World (fs w3) (stdout w3 ++ [all_done]))
                  else (Raise (os_error E "UnicodeEncodeError" all_done), w3)
              end
          end
      end
  end.
Proof.
  unfold generate_icons, bind, path_exists, print, raise.
  destruct (fs w !! src); cbn [negb].
  2:{ destruct (printable E (not_found src)); reflexivity. }
  destruct (makedirs E out w) as [[[]|e] w1]; [|reflexivity].
  destruct (image_open C E src w1) as [[img|e] w2]; [|reflexivity].
  destruct (icons_loop F C E img out SIZES w2) as [[[]|e] w3]; [|reflexivity].
  destruct (printable E all_done); reflexivity.
Qed.

Lemma ordinary_mkdir_exist_ok (cls p : string) (w : world) :
  ordinary (mkdir_exist_ok E cls p w).1.
Proof.
  unfold mkdir_exist_ok. destruct (fs w !! p) as [[c|]|]; cbn [fst]; auto.
  destruct (mkdir_refused E p); cbn [fst]; auto.
Qed.

Lemma ordinary_mkdirs (ps : list string) :
  forall w, ordinary (mkdirs E ps w).1.
Proof.
  induction ps as [|p ps IH]; intros w; cbn [mkdirs]; [cbn; auto|].
  unfold bind.
  pose proof (ordinary_mkdir_exist_ok "NotADirectoryError" p w) as H.
  destruct (mkdir_exist_ok E "NotADirectoryError" p w) as [[[]|e] w1];
    cbn [fst] in *; [apply IH | exact H].
Qed.

Lemma ordinary_makedirs (name : string) (w : world) :
  ordinary (makedirs E name w).1.
Proof.
  unfold makedirs. destruct (String.eqb name ""); [cbn; auto|].
  assert (Hgo : ordinary ((mkdirs E (parents name) ;;;
                           mkdir_exist_ok E "FileExistsError" name) w).1).
  { unfold bind. pose proof (ordinary_mkdirs (parents name) w) as H.
    destruct (mkdirs E (parents name) w) as [[[]|e] w1]; cbn [fst] in *;
      [apply ordinary_mkdir_exist_ok | exact H]. }
  destruct (fs w !! name) as [[c|]|]; try exact Hgo. cbn. auto.
Qed.

(** Opening the source reads the file system and leaves it as it is; an
    image it returns comes from the bytes of the file, and fails with an
    ordinary exception when its pixel data cannot be decoded. *)
Lemma image_open_pure (path : string) (w : world) :
  (image_open C E path w).2 = w /\
  ordinary (image_open C E path w).1 /\
  forall lazy,
    (image_open C E path w).1 = Ok lazy ->
    ordinary lazy /\
    read_refused E path = None /\
    exists bytes,
      fs w !! path = Some (File bytes) /\
      match lazy with
      | Ok img => decode C bytes = Picture img
      | Raise _ => exists cls, decode C bytes = Damaged cls
      end.
Proof.
  unfold image_open. destruct (fs w !! path) as [[bytes|]|]; cbn [fst snd].
  2,3: split; [reflexivity|]; split; [auto|]; discriminate.
  destruct (read_refused E path); cbn [fst snd].
  { split; [reflexivity|]. split; [auto|]. discriminate. }
  destruct (decode C bytes) as [cls|cls|img] eqn:Hd; cbn [fst snd];
    (split; [reflexivity|]); (split; [auto|]).
  - discriminate.
  - intros lazy [= <-]. split; [apply ordinary_os_error|].
    split; [reflexivity|]. eauto.
  - intros lazy [= <-]. split; [apply ordinary_Ok|].
    split; [reflexivity|]. eauto.
Qed.

(** A run that stopped before it wrote an icon. *)
Ltac stopped_early blank :=
  eexists _, blank, [], [];
  cbn [fst snd fs stdout exit_status Z.eqb confirmations map];
  rewrite ?app_nil_r;
  split; [first [eassumption | apply dirs_added_refl]|];
  split; [first [assumption | reflexivity]|];
  split; [apply prefix_nil|];
  split; [left; reflexivity|];
  split; [congruence|];
  split; [reflexivity|];
  split; [first [reflexivity | assumption]|];
  split; [split; [discriminate | intros Hs; discriminate Hs]
         | right; reflexivity].

(** The file system and the console after a run, and its exit status. *)
Lemma generate_icons_effects (src out : string) (w : world) :
  exists base img written printed,
    dirs_added (fs w) base /\
    (forall S, base !! output_path out S = fs w !! output_path out S) /\
    written `prefix_of` SIZES /\
    (printed = written \/
     exists S, written = printed ++ [S] /\
               printable E (confirmation out S) = false) /\
    (written <> [] ->
     exists bytes,
       fs w !! src = Some (File bytes) /\ decode C bytes = Picture img) /\
    fs (generate_icons F C E src out w).2
    = write_icons F C img out written base /\
    stdout (generate_icons F C E src out w).2
    = stdout w ++
      match fs w !! src with
      | None => if printable E (not_found src) then [not_found src] else []
      | Some _ =>
          confirmations out printed ++
          (if exit_status (generate_icons F C E src out w).1 =? 0
           then [all_done] else [])
      end /\
    (exit_status (generate_icons F C E src out w).1 = 0 <-> written = SIZES) /\
    (exit_status (generate_icons F C E src out w).1 = 0 \/
     exit_status (generate_icons F C E src out w).1 = 1).
Proof.
  set (blank := Image "" 0 0 (fun _ _ => transparent)).
  rewrite generate_icons_eq.
  destruct (fs w !! src) as [n|] eqn:Hsrc.
  2:{ unfold os_error. destruct (printable E (not_found src));
        stopped_early blank. }
  destruct (makedirs_dirs out w) as [Hdirs Hout].
  destruct (makedirs_keeps out w) as [Hkeep Hicons].
  pose proof (ordinary_makedirs out w) as Hord.
  destruct (makedirs E out w) as [[[]|e] w1]; cbn [fst snd] in *.
  2:{ destruct (Hord e eq_refl) as (cls & msg & ->). stopped_early blank. }
  destruct (image_open_pure src w1) as (Hw2 & Hord2 & Hlazy).
  destruct (image_open C E src w1) as [[lazy|e] w2]; cbn [fst snd] in *;
    subst w2.
  2:{ destruct (Hord2 e eq_refl) as (cls & msg & ->). stopped_early blank. }
  destruct (Hlazy lazy eq_refl) as (Hol & _ & bytes & Hbytes & Hdec).
  destruct lazy as [img | e].
  2:{ change (icons_loop F C E (Raise e) out SIZES w1)
        with (@Raise unit e, w1).
      destruct (Hol e eq_refl) as (cls & msg & ->). stopped_early blank. }
  assert (Hbytes0 : Some n = Some (File bytes)).
  { rewrite <- Hsrc. destruct (Hdirs src) as [Ep | [Ep _]]; congruence. }
  destruct (icons_loop_prefix img out SIZES w1)
    as (written & printed & Hpre & Hlag & Hpr & Hw & Hok & Ho).
  exists (fs w1), img, written, printed.
  split; [exact Hdirs|]. split; [exact Hicons|]. split; [exact Hpre|].
  split; [exact Hlag|]. split; [intros _; eauto|].
  assert (Hsix : written = SIZES -> printed = SIZES).
  { intros ->. destruct Hlag as [-> | (S & Hs & Hno)]; [reflexivity|].
    exfalso.
    change SIZES with ([16; 32; 48; 64; 128] ++ [256]) in Hs.
    apply app_inj_tail in Hs as [<- <-].
    rewrite <- (printable_confirmation_same out 16 256) in Hno
      by (cbn; auto 10).
    rewrite (Hpr 16) in Hno by (cbn; auto). discriminate. }
  assert (Hback : printed = SIZES -> written = SIZES).
  { intros ->. destruct Hlag as [<- | (S & -> & _)]; [reflexivity|].
    apply prefix_length in Hpre. rewrite length_app in Hpre.
    cbn in Hpre. lia. }
  destruct (icons_loop F C E (Ok img) out SIZES w1) as [[[]|e] w3];
    cbn [fst snd] in *; subst w3.
  - assert (Hp : printed = SIZES) by (apply Hok; reflexivity).
    rewrite (printable_all_done out 16) by (apply Hpr; rewrite Hp; cbn; auto).
    cbn [fst snd fs stdout exit_status Z.eqb].
    split; [reflexivity|].
    split; [rewrite Hout, <- app_assoc; reflexivity|].
    split; [split; auto | left; reflexivity].
  - destruct (Ho e eq_refl) as (cls & msg & ->).
    cbn [fst snd fs stdout exit_status Z.eqb].
    split; [reflexivity|].
    split; [rewrite Hout, app_nil_r; reflexivity|].
    split; [|right; reflexivity].
    split; [discriminate|]. intros Hs. apply Hsix, Hok in Hs. discriminate.
Qed.




End ScriptProperties.

(** * The properties at concrete inputs *)

Section Instances.

Import Sample.

(** C2 at a 100 by 50 source and target size 64. *)
Lemma result_is_square_witness :
  exists r,
    resize_with_padding nearest (solid 100 50) 64 = Ok r /\
    width r = 64 /\ height r = 64.
Proof.
  destruct (result_is_square nearest (solid 100 50) 64)
    as [_ (nw & nh & Es & H)].
  - cbn. lia.
  - cbn. lia.
  - cbn. auto 10.
  - vm_compute in Es. injection Es as <- <-. apply H; lia.
Defined.

(** C3 at a 100 by 50 source and target size 64. *)
Lemma scaled_size_truncates_and_fits_witness :
  exists nw nh,
    scaled_size 100 50 64 = Ok (nw, nh) /\ 0 <= nw <= 64 /\ 0 <= nh <= 64.
Proof.
  destruct (scaled_size_truncates_and_fits 100 50 64)
    as (qw & qh & fw & fh & nw & nh & H); [lia | lia | lia |].
  exists nw, nh. tauto.
Defined.

(** C4 at a 100 by 50 source and target size 64: the content is 64 by
    32, its top left pixel lands on (0, 16) and its bottom right pixel on
    (63, 47). *)
Lemma content_is_centered_witness :
  exists r,
    resize_with_padding nearest (solid 100 50) 64 = Ok r /\
    getpixel r 0 16 = Pixel 200 100 50 255 /\
    getpixel r 63 47 = Pixel 200 100 50 255 /\
    0 <= (64 - 32 - offset 64 32) - offset 64 32 <= 1.
Proof.
  destruct (resize_with_padding nearest (solid 100 50) 64) as [r | e] eqn:E.
  - exists r. split; [reflexivity|].
    destruct (content_is_centered nearest (solid 100 50) r 64 E)
      as (nw & nh & resized & Es & Eres & Hpx & _ & _ & _ & _ & H).
    vm_compute in Es. injection Es as <- <-.
    vm_compute in Eres. injection Eres as <-.
    split; [|split; [|exact H]].
    + apply (Hpx 0 0); cbn; lia.
    + apply (Hpx 63 31); cbn; lia.
  - vm_compute in E. discriminate.
Defined.

(** C5 at a 100 by 50 source and target size 64: the top left pixel. *)
Lemma padding_is_transparent_witness :
  exists r,
    resize_with_padding nearest (solid 100 50) 64 = Ok r /\
    getpixel r 0 0 = transparent.
Proof.
  destruct (resize_with_padding nearest (solid 100 50) 64) as [r | e] eqn:E.
  - exists r. split; [reflexivity|].
    destruct (proj1 (padding_is_transparent nearest) (solid 100 50) r 64 E)
      as (nw & nh & Es & H).
    vm_compute in Es. injection Es as <- <-.
    apply H. vm_compute. reflexivity.
  - vm_compute in E. discriminate.
Defined.


(** C8 as the specification states it fails at target size 0: the call
    raises the [ValueError] of [resize], not an [InvalidConfiguration]. *)
Lemma zero_target_raises_ValueError :
  resize_with_padding nearest (solid 10 10) 0
  = Raise (PyErr "ValueError" "height and width must be > 0") /\
  ~ raises_class "InvalidConfiguration"
      (resize_with_padding nearest (solid 10 10) 0).
Proof.
  assert (E : resize_with_padding nearest (solid 10 10) 0
              = Raise (PyErr "ValueError" "height and width must be > 0"))
    by (vm_compute; reflexivity).
  split; [exact E|]. intros [msg H]. rewrite E in H. discriminate.
Qed.

(** C8 as the code has it, at target size 0. *)
Lemma nonpositive_target_raises_witness :
  raises_class "ValueError" (resize_with_padding nearest (solid 10 10) 0) \/
  raises_class "OverflowError" (resize_with_padding nearest (solid 10 10) 0).
Proof.
  apply (nonpositive_target_raises nearest (solid 10 10) 0); cbn; lia.
Defined.




End Instances.

(** * How close the scaled size is to the exact one *)

Section AspectRatio.

Import Rounding.

(** With [ratio] within [2 ^ -53] of [S / D], [int(n * ratio)] is the
    floor of [S * n / D] or one less. *)
Lemma int_mul_trunc_close (n D S : Z) (mr : positive) (er : Z) :
  0 < n < 2 ^ 31 -> 0 < D -> 0 < S -> S * n < 2 ^ 51 ->
  2 ^ 52 <= Zpos mr < 2 ^ 53 -> -900 <= er <= 0 ->
  Zpos mr * 2 ^ (er + bias) * D * (2 ^ 53 - 1) <= S * 2 ^ 53 * 2 ^ bias ->
  S * 2 ^ 53 * 2 ^ bias <= Zpos mr * 2 ^ (er + bias) * D * (2 ^ 53 + 1) ->
  exists k,
    Py.int_mul_trunc n (S754_finite false mr er) = Ok k /\
    0 <= k /\ D * k <= S * n < D * (k + 2).
Proof.
  intros Hn HD HS HSn Hmr Her Hup Hlo.
  destruct (int_to_float_exact n Hn) as (mn & en & En & Hmn & Hen & Vn).
  destruct (float_mul_normal false mn en false mr er Hmn Hmr)
    as (m & e & Em & Hm & He & Vup & Vlo); try lia.
  unfold Py.int_mul_trunc. rewrite En. cbn [rbind]. rewrite Em.
  cbn [xorb]. rewrite float_to_int_scaled by (unfold bias; lia).
  cbn [cond_Zopp]. eexists. split; [reflexivity|].
  rewrite Vn in Vup, Vlo.
  pose proof (pow2_pos bias ltac:(unfold bias; lia)) as HT.
  assert (HR : 0 < 2 ^ (er + bias)) by (apply pow2_pos; unfold bias; lia).
  assert (HV : 0 < 2 ^ (e + bias)) by (apply pow2_pos; unfold bias; lia).
  set (T := 2 ^ bias) in *. set (R := Zpos mr * 2 ^ (er + bias)) in *.
  set (V := Zpos m * 2 ^ (e + bias)) in *.
  assert (HV0 : 0 <= V) by (unfold V; nia).
  assert (HR0 : 0 <= R) by (unfold R; nia).
  pose proof (Z.mul_div_le V T HT) as Kle.
  pose proof (Z.mul_succ_div_gt V T HT) as Kgt.
  assert (Hk0 : 0 <= V / T) by (apply Z.div_pos; lia).
  set (k := V / T) in *. clearbody T R V k.
  change (2 ^ 53) with 9007199254740992 in *.
  change (2 ^ 51) with 2251799813685248 in *.
  (* cancel [T] in the bounds of the product *)
  assert (V1 : V * 9007199254740991 <= n * R * 9007199254740992).
  { apply (Z.mul_le_mono_pos_r _ _ T HT). lia. }
  assert (V2 : n * R * 9007199254740992 <= V * 9007199254740993).
  { apply (Z.mul_le_mono_pos_r _ _ T HT). lia. }
  (* the upper bound *)
  assert (U1 : T * (D * k * 9007199254740991 * 9007199254740991)
               <= T * (S * n * 9007199254740992 * 9007199254740992)).
  { assert (A1 : T * k * 9007199254740991 <= n * R * 9007199254740992) by lia.
    assert (A2 : (T * k * 9007199254740991) * (D * 9007199254740991)
                 <= (n * R * 9007199254740992) * (D * 9007199254740991))
      by (apply Z.mul_le_mono_nonneg_r; lia).
    assert (A3 : (n * 9007199254740992) * (R * D * 9007199254740991)
                 <= (n * 9007199254740992) * (S * 9007199254740992 * T))
      by (apply Z.mul_le_mono_nonneg_l; lia).
    lia. }
  apply Z.mul_le_mono_pos_l in U1; [|exact HT].
  assert (Hupper : D * k <= S * n).
  { destruct (Z_le_gt_dec (D * k) (S * n)) as [|Hgt]; [assumption|exfalso].
    set (X := D * k) in *. set (Y := S * n) in *. clearbody X Y. lia. }
  split; [exact Hk0|]. split; [exact Hupper|].
  (* the lower bound *)
  assert (Hk51 : k < 2251799813685248) by nia.
  assert (L1 : T * (S * n * 9007199254740992 * 9007199254740992)
               < T * (D * (k + 1) * 9007199254740993 * 9007199254740993)).
  { assert (B1 : n * R * 9007199254740992 < T * (k + 1) * 9007199254740993)
      by lia.
    assert (B2 : (n * R * 9007199254740992) * (D * 9007199254740993)
                 < (T * (k + 1) * 9007199254740993) * (D * 9007199254740993))
      by (apply Z.mul_lt_mono_pos_r; lia).
    assert (B3 : (n * 9007199254740992) * (S * 9007199254740992 * T)
                 <= (n * 9007199254740992) * (R * D * 9007199254740993))
      by (apply Z.mul_le_mono_nonneg_l; lia).
    lia. }
  apply Z.mul_lt_mono_pos_l in L1; [|exact HT].
  destruct (Z_lt_le_dec (S * n) (D * (k + 2))) as [|Hge]; [assumption|exfalso].
  assert (L2 : D * (9007199254740992 * 9007199254740992)
               < D * ((k + 1) * 18014398509481985)).
  { set (Z1 := D * (k + 1)) in *.
    assert (S * n >= Z1 + D) by (unfold Z1; lia).
    set (Y := S * n) in *. clearbody Y.
    replace (D * ((k + 1) * 18014398509481985))
      with (Z1 * 18014398509481985) by (unfold Z1; ring).
    clearbody Z1. lia. }
  apply Z.mul_lt_mono_pos_l in L2; [lia | exact HD].
Qed.

(** The ratio is within [2 ^ -53] of [S / max(w, h)]. *)
Lemma ratio_close (w h S : Z) :
  0 < w < 2 ^ 31 -> 0 < h < 2 ^ 31 -> 0 < S < 2 ^ 31 ->
  exists mr er,
    ratio w h S = Ok (S754_finite false mr er) /\
    2 ^ 52 <= Zpos mr < 2 ^ 53 /\ -84 <= er <= -21 /\
    Zpos mr * 2 ^ (er + bias) * Z.max w h * (2 ^ 53 - 1)
    <= S * 2 ^ 53 * 2 ^ bias /\
    S * 2 ^ 53 * 2 ^ bias
    <= Zpos mr * 2 ^ (er + bias) * Z.max w h * (2 ^ 53 + 1).
Proof.
  intros Hw Hh HS.
  destruct (int_truediv_normal S w HS Hw)
    as (ma & ea & Ea & Hma & Hea & Ua & La).
  destruct (int_truediv_normal S h HS Hh)
    as (mb & eb & Eb & Hmb & Heb & Ub & Lb).
  unfold ratio. rewrite Ea, Eb. cbn [rbind].
  set (qw := S754_finite false ma ea) in *.
  set (qh := S754_finite false mb eb) in *.
  assert (Na : normal false qw) by (exists ma, ea; repeat split; lia).
  assert (Nb : normal false qh) by (exists mb, eb; repeat split; lia).
  pose proof (min_scaled_eq qw qh Na Nb) as Emin.
  assert (Ha0 : 0 < Zpos ma * 2 ^ (ea + bias)).
  { apply Z.mul_pos_pos; [lia | apply pow2_pos; unfold bias; lia]. }
  assert (Hb0 : 0 < Zpos mb * 2 ^ (eb + bias)).
  { apply Z.mul_pos_pos; [lia | apply pow2_pos; unfold bias; lia]. }
  change (scaled qw) with (Zpos ma * 2 ^ (ea + bias)) in Emin.
  change (scaled qh) with (Zpos mb * 2 ^ (eb + bias)) in Emin.
  set (A := Zpos ma * 2 ^ (ea + bias)) in *.
  set (B := Zpos mb * 2 ^ (eb + bias)) in *.
  change (2 ^ 53) with 9007199254740992 in *.
  assert (Hcases : (Py.min qw qh = qw /\ A <= B) \/
                   (Py.min qw qh = qh /\ B <= A)).
  { destruct (min_cases qw qh) as [E | E]; rewrite E in Emin;
      [left | right]; (split; [exact E|]).
    - change (scaled qw) with A in Emin. lia.
    - change (scaled qh) with B in Emin. lia. }
  set (T := 2 ^ bias) in *.
  destruct Hcases as [[E Hle] | [E Hle]]; rewrite E.
  - exists ma, ea. split; [reflexivity|]. split; [lia|]. split; [lia|].
    fold A T. clearbody A B T.
    destruct (Z.max_spec w h) as [[Hlt ->] | [Hge ->]]; split;
      try lia; nia.
  - exists mb, eb. split; [reflexivity|]. split; [lia|]. split; [lia|].
    fold B T. clearbody A B T.
    destruct (Z.max_spec w h) as [[Hlt ->] | [Hge ->]]; split;
      try lia; nia.
Qed.

(** Both scaled dimensions against the exact quotients. *)
Lemma scaled_size_close (w h S : Z) :
  0 < w < 2 ^ 31 -> 0 < h < 2 ^ 31 -> 0 < S <= 2 ^ 20 ->
  exists nw nh,
    scaled_size w h S = Ok (nw, nh) /\ 0 <= nw /\ 0 <= nh /\
    Z.max w h * nw <= S * w < Z.max w h * (nw + 2) /\
    Z.max w h * nh <= S * h < Z.max w h * (nh + 2).
Proof.
  intros Hw Hh HS.
  destruct (ratio_close w h S Hw Hh ltac:(lia))
    as (mr & er & Er & Hmr & Her & Rup & Rlo).
  assert (HD : 0 < Z.max w h) by lia.
  assert (H51 : forall n, 0 < n < 2 ^ 31 -> S * n < 2 ^ 51).
  { intros n Hn. change (2 ^ 51) with (2 ^ 20 * 2 ^ 31).
    change (2 ^ 20) with 1048576 in *. change (2 ^ 31) with 2147483648 in *.
    nia. }
  destruct (int_mul_trunc_close w (Z.max w h) S mr er Hw HD)
    as (nw & Enw & Hnw0 & Hnw); try lia; try assumption; [auto|].
  destruct (int_mul_trunc_close h (Z.max w h) S mr er Hh HD)
    as (nh & Enh & Hnh0 & Hnh); try lia; try assumption; [auto|].
  unfold scaled_size. rewrite Er. cbn [rbind]. rewrite Enw. cbn [rbind].
  rewrite Enh. cbn [rbind]. exists nw, nh. auto.
Qed.

End AspectRatio.

(** * Further properties of [resize_with_padding] *)

Section RenderBounds.

Import Rounding.

Variable F : filters.

(** X1: each scaled dimension is the floor of the exact scaled dimension
    [S * dim / max(w, h)], or one pixel less. *)
Theorem scaled_size_keeps_aspect_ratio (w h S : Z) :
  0 < w < 2 ^ 31 -> 0 < h < 2 ^ 31 -> 0 < S <= 2 ^ 20 ->
  exists nw nh,
    scaled_size w h S = Ok (nw, nh) /\
    S * w / Z.max w h - 1 <= nw <= S * w / Z.max w h /\
    S * h / Z.max w h - 1 <= nh <= S * h / Z.max w h.
Proof.
  intros Hw Hh HS.
  destruct (scaled_size_close w h S Hw Hh HS)
    as (nw & nh & Es & Hnw0 & Hnh0 & Hnw & Hnh).
  exists nw, nh. split; [exact Es|].
  assert (HD : 0 < Z.max w h) by lia.
  split; split.
  - assert (S * w / Z.max w h < nw + 2)
      by (apply Z.div_lt_upper_bound; lia).
    lia.
  - apply Z.div_le_lower_bound; lia.
  - assert (S * h / Z.max w h < nh + 2)
      by (apply Z.div_lt_upper_bound; lia).
    lia.
  - apply Z.div_le_lower_bound; lia.
Qed.

(** X2: the longer side of the source is scaled to [S] or to [S - 1]; for
    a square source both sides are, and they are equal. *)
Theorem longer_side_nearly_fills (w h S : Z) :
  0 < w < 2 ^ 31 -> 0 < h < 2 ^ 31 -> 0 < S <= 2 ^ 20 ->
  exists nw nh,
    scaled_size w h S = Ok (nw, nh) /\
    (h <= w -> S - 1 <= nw <= S) /\
    (w <= h -> S - 1 <= nh <= S) /\
    (w = h -> nw = nh).
Proof.
  intros Hw Hh HS.
  destruct (scaled_size_close w h S Hw Hh HS)
    as (nw & nh & Es & Hnw0 & Hnh0 & Hnw & Hnh).
  exists nw, nh. split; [exact Es|]. split; [|split].
  - intros Hle. rewrite Z.max_l in Hnw by lia. nia.
  - intros Hle. rewrite Z.max_r in Hnh by lia. nia.
  - intros ->. unfold scaled_size in Es.
    destruct (ratio h h S) as [r | e]; cbn [rbind] in Es; [|discriminate].
    destruct (Py.int_mul_trunc h r) as [n | e]; cbn [rbind] in Es;
      [|discriminate].
    injection Es as <- <-. reflexivity.
Qed.

(** A source whose longer side is at most [S / 2] times its shorter side
    is rendered. *)
Lemma moderate_aspect_renders (img : image) (S : Z) :
  0 < width img < 2 ^ 31 -> 0 < height img < 2 ^ 31 -> 0 < S <= 2 ^ 20 ->
  2 * Z.max (width img) (height img) <= S * Z.min (width img) (height img) ->
  exists r, resize_with_padding F img S = Ok r.
Proof.
  intros Hw Hh HS Hratio.
  destruct (scaled_size_close _ _ S Hw Hh HS)
    as (nw & nh & Es & Hnw0 & Hnh0 & Hnw & Hnh).
  set (D := Z.max (width img) (height img)) in *.
  assert (HD : 0 < D) by (unfold D; lia).
  assert (HwD : width img <= D) by (unfold D; lia).
  assert (HhD : height img <= D) by (unfold D; lia).
  assert (Hmw : Z.min (width img) (height img) <= width img) by lia.
  assert (Hmh : Z.min (width img) (height img) <= height img) by lia.
  set (d := Z.min (width img) (height img)) in *.
  assert (H1w : 1 <= nw) by (clearbody D d; nia).
  assert (H1h : 1 <= nh) by (clearbody D d; nia).
  assert (HSw : nw <= S) by (clearbody D d; nia).
  assert (HSh : nh <= S) by (clearbody D d; nia).
  pose proof (resize_with_padding_ok F img S nw nh) as Hok.
  specialize (Hok ltac:(lia) ltac:(lia) Es ltac:(lia) ltac:(lia)).
  assert (HS31 : S < 2 ^ 31).
  { change (2 ^ 20) with 1048576 in HS. change (2 ^ 31) with 2147483648. lia. }
  specialize (Hok HS31).
  apply Z.leb_le in H1w. apply Z.leb_le in H1h. rewrite H1w, H1h in Hok.
  exact Hok.
Qed.

(** Either all six sizes can be rendered, or the first one cannot. *)
Lemma all_sizes_or_not_the_first (img : image) :
  0 < width img < 2 ^ 31 -> 0 < height img < 2 ^ 31 ->
  forallb (fun S => succeeds (resize_with_padding F img S)) SIZES = true \/
  resize_with_padding F img 16
  = Raise (PyErr "ValueError" "height and width must be > 0").
Proof.
  intros Hw Hh.
  assert (H16 : 0 < 16 <= 2 ^ 20) by (change (2 ^ 20) with 1048576; lia).
  destruct (scaled_size_close _ _ 16 Hw Hh H16)
    as (nw & nh & Es & Hnw0 & Hnh0 & Hnw & Hnh).
  set (D := Z.max (width img) (height img)) in *.
  assert (HD : 0 < D) by (unfold D; lia).
  assert (HwD : width img <= D) by (unfold D; lia).
  assert (HhD : height img <= D) by (unfold D; lia).
  assert (HSw : nw <= 16) by (clearbody D; nia).
  assert (HSh : nh <= 16) by (clearbody D; nia).
  pose proof (resize_with_padding_ok F img 16 nw nh) as Hok.
  specialize (Hok ltac:(lia) ltac:(lia) Es ltac:(lia) ltac:(lia) ltac:(lia)).
  destruct ((1 <=? nw) && (1 <=? nh)) eqn:Hpos; [left | right; exact Hok].
  apply andb_prop in Hpos as [H1w H1h].
  apply Z.leb_le in H1w. apply Z.leb_le in H1h.
  assert (Hmin : D <= 16 * Z.min (width img) (height img)).
  { destruct (Z.min_spec (width img) (height img)) as [[_ ->] | [_ ->]];
      clearbody D; nia. }
  apply forallb_forall. intros S HS.
  unfold SIZES in HS. cbn [In] in HS.
  destruct HS as [<- | HS].
  { destruct Hok as [r ->]. reflexivity. }
  assert (Hbig : 32 <= S <= 2 ^ 20).
  { change (2 ^ 20) with 1048576.
    repeat (destruct HS as [<- | HS]; [lia|]). contradiction. }
  destruct (moderate_aspect_renders img S Hw Hh ltac:(lia)) as [r ->];
    [|reflexivity].
  fold D. clearbody D. lia.
Qed.

(** X3: a source whose longer side is at most [S / 2] times its shorter
    side is always rendered: the call returns an [S] by [S] image. *)
Theorem moderate_aspect_ratio_succeeds (img : image) (S : Z) :
  0 < width img < 2 ^ 31 -> 0 < height img < 2 ^ 31 -> 0 < S <= 2 ^ 20 ->
  2 * Z.max (width img) (height img) <= S * Z.min (width img) (height img) ->
  exists r,
    resize_with_padding F img S = Ok r /\ width r = S /\ height r = S.
Proof.
  intros Hw Hh HS Hratio.
  destruct (moderate_aspect_renders img S Hw Hh HS Hratio) as [r Hr].
  exists r. split; [exact Hr|].
  destruct (resize_with_padding_inv F img r S Hr)
    as (_ & _ & _ & _ & _ & Hrw & Hrh & _). auto.
Qed.

(** X4: a source whose longer side is more than [S] times its shorter
    side is never rendered: the shorter side is scaled to 0 and the call
    raises the [ValueError] of [resize]. *)
Theorem extreme_aspect_ratio_raises (img : image) (S : Z) :
  0 < width img < 2 ^ 31 -> 0 < height img < 2 ^ 31 -> 0 < S <= 2 ^ 20 ->
  S * Z.min (width img) (height img) < Z.max (width img) (height img) ->
  resize_with_padding F img S
  = Raise (PyErr "ValueError" "height and width must be > 0").
Proof.
  intros Hw Hh HS Hratio.
  destruct (scaled_size_close _ _ S Hw Hh HS)
    as (nw & nh & Es & Hnw0 & Hnh0 & Hnw & Hnh).
  set (D := Z.max (width img) (height img)) in *.
  assert (HD : 0 < D) by (unfold D; lia).
  assert (HwD : width img <= D) by (unfold D; lia).
  assert (HhD : height img <= D) by (unfold D; lia).
  assert (Hmin : Z.min (width img) (height img) = width img \/
                 Z.min (width img) (height img) = height img) by lia.
  assert (HSw : nw <= S) by (clearbody D; nia).
  assert (HSh : nh <= S) by (clearbody D; nia).
  assert (Hzero : nw < 1 \/ nh < 1).
  { destruct Hmin as [E | E]; rewrite E in Hratio; [left | right];
      clearbody D; nia. }
  pose proof (resize_with_padding_ok F img S nw nh) as Hok.
  specialize (Hok ltac:(lia) ltac:(lia) Es ltac:(lia) ltac:(lia)).
  assert (HS31 : S < 2 ^ 31).
  { change (2 ^ 20) with 1048576 in HS. change (2 ^ 31) with 2147483648. lia. }
  specialize (Hok HS31).
  replace ((1 <=? nw) && (1 <=? nh)) with false in Hok; [exact Hok|].
  symmetry. apply andb_false_iff.
  destruct Hzero; [left | right]; apply Z.leb_gt; assumption.
Qed.

(** X5: the scaled content is never cropped: its footprint, at the
    centering offsets, lies inside the [S] by [S] canvas. *)
Theorem content_inside_canvas (w h S : Z) :
  0 < w < 2 ^ 31 -> 0 < h < 2 ^ 31 -> 0 < S < 2 ^ 31 ->
  exists nw nh,
    scaled_size w h S = Ok (nw, nh) /\
    0 <= offset S nw /\ offset S nw + nw <= S /\
    0 <= offset S nh /\ offset S nh + nh <= S /\
    forall x y,
      in_box (offset S nw) (offset S nh) nw nh x y = true ->
      0 <= x < S /\ 0 <= y < S.
Proof.
  intros Hw Hh HS.
  destruct (scaled_size_fits w h S Hw Hh HS) as (nw & nh & Es & Bw & Bh).
  exists nw, nh. split; [exact Es|].
  assert (Hoff : forall n, 0 <= n <= S -> 0 <= offset S n /\ offset S n + n <= S).
  { intros n Hn. unfold offset.
    pose proof (Z.div_mod (S - n) 2 ltac:(lia)).
    pose proof (Z.mod_pos_bound (S - n) 2 ltac:(lia)). lia. }
  destruct (Hoff nw Bw) as [Hx0 Hx1]. destruct (Hoff nh Bh) as [Hy0 Hy1].
  repeat split; try assumption;
    unfold in_box in H;
    repeat (apply andb_prop in H as [H ?]);
    repeat match goal with
           | E : (_ <=? _) = true |- _ => apply Z.leb_le in E
           | E : (_ <? _) = true |- _ => apply Z.ltb_lt in E
           end; lia.
Qed.

(** X6: a source of width 0, or of height 0, makes the first or the
    second division fail: the call raises [ZeroDivisionError]. *)
Theorem zero_dimension_raises (img : image) (S : Z) :
  width img = 0 \/
  (height img = 0 /\ 0 < width img < 2 ^ 31 /\ 0 < S < 2 ^ 31) ->
  resize_with_padding F img S
  = Raise (PyErr "ZeroDivisionError" "division by zero").
Proof.
  intros Hz. unfold resize_with_padding.
  destruct (size_convert F img "RGBA") as [-> ->].
  unfold scaled_size, ratio.
  destruct Hz as [-> | (-> & Hw & HS)].
  - reflexivity.
  - destruct (int_truediv_normal S (width img) HS Hw)
      as (m & e & -> & _). reflexivity.
Qed.

(** X15: rendering can only fail at the first size: when the 16 pixel
    icon of a source can be rendered, so can the other five. *)
Theorem first_size_decides (img : image) :
  0 < width img < 2 ^ 31 -> 0 < height img < 2 ^ 31 ->
  succeeds (resize_with_padding F img 16) = true ->
  forall S, In S SIZES -> exists r, resize_with_padding F img S = Ok r.
Proof.
  intros Hw Hh H16 S HS.
  destruct (all_sizes_or_not_the_first img Hw Hh) as [Hall | Hfail].
  - rewrite forallb_forall in Hall. specialize (Hall S HS).
    destruct (resize_with_padding F img S) as [r | e]; [eauto | discriminate].
  - rewrite Hfail in H16. discriminate.
Qed.

(** ** The pasted pixels *)

(** X18: the content is pasted through its own alpha band onto a
    transparent canvas, so inside the footprint every band of a content
    pixel, the alpha band included, is multiplied by the pixel's alpha
    over 255 and rounded: an opaque pixel is copied as it is, a
    transparent one stays transparent, and a pixel in between comes out
    no brighter and no more opaque than it was. *)
Theorem paste_scales_by_alpha (img r : image) (S : Z) :
  resize_with_padding F img S = Ok r ->
  exists nw nh resized,
    scaled_size (width img) (height img) S = Ok (nw, nh) /\
    resize F (convert F img "RGBA") (nw, nh) = Ok resized /\
    forall x y,
      in_box (offset S nw) (offset S nh) nw nh x y = true ->
      let p := getpixel resized (x - offset S nw) (y - offset S nh) in
      let q := getpixel r x y in
      0 <= red p <= 255 -> 0 <= green p <= 255 -> 0 <= blue p <= 255 ->
      0 <= alpha p <= 255 ->
      (- 127 <= 255 * red q - red p * alpha p <= 127 /\
       - 127 <= 255 * green q - green p * alpha p <= 127 /\
       - 127 <= 255 * blue q - blue p * alpha p <= 127 /\
       - 127 <= 255 * alpha q - alpha p * alpha p <= 127) /\
      (0 <= red q <= red p /\ 0 <= green q <= green p /\
       0 <= blue q <= blue p /\ 0 <= alpha q <= alpha p) /\
      (alpha p = 255 -> q = p) /\
      (alpha p = 0 -> q = transparent).
Proof.
  intros Hr.
  destruct (resize_with_padding_inv F img r S Hr)
    as (nw & nh & resized & Es & Er & _ & _ & Hpx).
  exists nw, nh, resized. split; [exact Es|]. split; [exact Er|].
  intros x y Hin p q Hred Hgreen Hblue Halpha.
  assert (Eq : q = blend (alpha p) transparent p).
  { unfold q. rewrite Hpx, Hin. reflexivity. }
  clearbody q. subst q. unfold blend, transparent.
  cbn [red green blue alpha].
  destruct (blend8_transparent (alpha p) (red p) Halpha Hred)
    as (R1 & R2 & R3 & R4).
  destruct (blend8_transparent (alpha p) (green p) Halpha Hgreen)
    as (G1 & G2 & G3 & G4).
  destruct (blend8_transparent (alpha p) (blue p) Halpha Hblue)
    as (B1 & B2 & B3 & B4).
  destruct (blend8_transparent (alpha p) (alpha p) Halpha Halpha)
    as (A1 & A2 & A3 & A4).
  split; [auto|]. split; [auto|]. split.
  - intros E. rewrite (R3 E), (G3 E), (B3 E), (A3 E).
    destruct p. reflexivity.
  - intros E. rewrite (R4 E), (G4 E), (B4 E), (A4 E). reflexivity.
Qed.

End RenderBounds.

(** * Further properties of the script *)

Section RunProperties.

Variable F : filters.
Variable C : codec.
Variable E : host.

(** ** What every run does *)



(** X7: with no positional argument the script prints its usage line and
    exits with status 1; the file system is left as it was. *)
Theorem too_few_arguments_prints_usage (argv : list string) (w : world) :
  (length argv < 2)%nat ->
  run F C E argv w = (1, World (fs w) (stdout w ++ [usage])).
Proof.
  intros Hlen. unfold run, main.
  replace (Z.of_nat (length argv) <? 2) with true
    by (symmetry; apply Z.ltb_lt; lia).
  reflexivity.
Qed.


(** X9: the console tells what was written.  The icons written are those
    of a prefix of the sizes, each holding the icon of the decoded
    source, and no other icon path is touched; the console has one
    confirmation line per icon written, in order, except that the last
    icon written has none when the console refuses its line; the closing
    line follows exactly when the run ends normally.  When the source is
    missing the console has the not-found line alone, if it takes it. *)
Theorem console_reports_the_icons (src out : string) (w : world) :
  exists img written printed,
    written `prefix_of` SIZES /\
    (printed = written \/
     exists S, written = printed ++ [S] /\
               printable E (confirmation out S) = false) /\
    (written <> [] ->
     exists bytes,
       fs w !! src = Some (File bytes) /\ decode C bytes = Picture img) /\
    stdout (generate_icons F C E src out w).2
    = stdout w ++
      match fs w !! src with
      | None =>
          if printable E ("❌ Source image not found: " ++ src)
          then ["❌ Source image not found: " ++ src]%string else []
      | Some _ =>
          map (fun S => ("✅ Generated " ++ output_path out S)%string) printed
          ++ (if exit_status (generate_icons F C E src out w).1 =? 0
              then ["🎉 All icons generated successfully!"] else [])
      end /\
    (forall S, In S written ->
               fs (generate_icons F C E src out w).2 !! output_path out S
               = Some (File (icon_bytes F C img S))) /\
    (forall S, In S SIZES -> ~ In S written ->
               fs (generate_icons F C E src out w).2 !! output_path out S
               = fs w !! output_path out S).
Proof.
  destruct (generate_icons_effects F C E src out w)
    as (base & img & written & printed & Hdirs & Hbase & Hpre & Hlag & Himg
        & Hfs & Hout & _).
  exists img, written, printed.
  split; [exact Hpre|]. split; [exact Hlag|]. split; [exact Himg|].
  split; [exact Hout|]. split.
  - intros S HS. rewrite Hfs. apply write_icons_in; [|exact HS].
    intros S' HS' Ep. apply (output_path_inj out); try exact Ep;
      eapply prefix_In; eassumption.
  - intros S Hin HS. rewrite Hfs, write_icons_other; [apply Hbase|].
    intros S' HS' Ep. apply HS.
    rewrite (output_path_inj out S S' Hin); [exact HS' | | exact Ep].
    eapply prefix_In; eassumption.
Qed.

(** X10: the six icons have six different paths, none of which is the
    output directory itself, whatever the output directory is called. *)
Theorem icon_paths_are_distinct (out : string) :
  NoDup (map (output_path out) SIZES) /\
  forall S, output_path out S <> out.
Proof.
  split.
  - change (map (output_path out) SIZES) with (output_path out <$> SIZES).
    apply NoDup_fmap_2_strong.
    + intros S1 S2 H1 H2 Ep. apply list_elem_of_In in H1, H2.
      apply (output_path_inj out); assumption.
    + apply (bool_decide_unpack _). vm_compute. exact I.
  - intros S. apply output_path_not_made.
Qed.

(** ** Runs that succeed *)

(** What is needed after [makedirs] holds when it held before. *)
Lemma can_write_after_makedirs (out : string) (w : world) (sizes : list Z) :
  forallb (fun S => can_write E (fs w) (output_path out S)) sizes = true ->
  forallb (fun S => can_write E (fs (makedirs E out w).2) (output_path out S))
    sizes = true.
Proof.
  intros H. destruct (makedirs_keeps E out w) as [_ Hicons].
  rewrite <- H. apply forallb_same. intros S. unfold can_write.
  rewrite Hicons. reflexivity.
Qed.


(** ** Runs that fail after the source was found *)

(** X12: the output directory is made before the source is opened, and
    the source is decoded only when the first icon is rendered: when the
    source file is not an image that can be decoded, the run raises an
    ordinary exception and exits with status 1, but the directory has
    been created; nothing is printed and no file is written. *)
Theorem corrupt_source_leaves_directory (src out bytes : string) (w : world) :
  can_makedirs E (fs w) out = true ->
  fs w !! src = Some (File bytes) ->
  (forall img, decode C bytes <> Picture img) ->
  (exists cls msg,
      generate_icons F C E src out w
      = (Raise (PyErr cls msg), (makedirs E out w).2)) /\
  exit_status (generate_icons F C E src out w).1 = 1 /\
  fs (makedirs E out w).2 !! out = Some Dir /\
  dirs_added (fs w) (fs (makedirs E out w).2) /\
  stdout (makedirs E out w).2 = stdout w.
Proof.
  intros Hcan Hsrc Hdec.
  destruct (makedirs_ok E out w Hcan) as [Hmk Hdir].
  destruct (makedirs_keeps E out w) as [Hkeep _].
  destruct (makedirs_dirs E out w) as [Hdirs Hout].
  assert (Hrun : exists cls msg,
             generate_icons F C E src out w
             = (Raise (PyErr cls msg), (makedirs E out w).2)).
  { rewrite generate_icons_eq, Hsrc.
    destruct (makedirs E out w) as [r1 w1]. cbn [fst snd] in *. subst r1.
    unfold image_open, os_error. rewrite (Hkeep src _ Hsrc).
    destruct (read_refused E src); [eauto|].
    destruct (decode C bytes) as [cls|cls|img] eqn:Ed; [eauto | eauto |].
    exfalso. exact (Hdec img eq_refl). }
  destruct Hrun as (cls & msg & Hrun). rewrite Hrun. cbn [fst exit_status].
  eauto 8.
Qed.

(** X13: when the source exists but the output directory cannot be made
    (its path is empty, or it or an ancestor is a file, or the system
    refuses to make it), the run stops there with an ordinary exception
    and exit status 1: nothing is printed, no file is written or
    changed. *)
Theorem unusable_output_directory_aborts (src out : string) (w : world) :
  is_Some (fs w !! src) ->
  can_makedirs E (fs w) out = false ->
  (exists cls msg,
      generate_icons F C E src out w
      = (Raise (PyErr cls msg), (makedirs E out w).2)) /\
  exit_status (generate_icons F C E src out w).1 = 1 /\
  dirs_added (fs w) (fs (generate_icons F C E src out w).2) /\
  stdout (generate_icons F C E src out w).2 = stdout w.
Proof.
  intros [n Hsrc] Hcan.
  pose proof (makedirs_fails E out w Hcan) as Hfail.
  pose proof (ordinary_makedirs E out w) as Hord.
  destruct (makedirs_dirs E out w) as [Hdirs Hout].
  rewrite generate_icons_eq, Hsrc.
  destruct (makedirs E out w) as [[[]|e] w1]; cbn [fst snd] in *;
    [congruence|].
  destruct (Hord e eq_refl) as (cls & msg & ->). cbn [exit_status].
  eauto 6.
Qed.

(** ** Running the script again *)


(** ** All or nothing, when nothing is in the way *)

(** X16: with an output directory that can be made, a readable source
    that decodes to an image of positive dimensions, icon paths that can
    be written and a console that takes the confirmations, a run either
    writes all six icons and returns normally, or raises the
    [ValueError] of [resize] at the first size and writes no file. *)
Theorem run_is_all_or_nothing (src out bytes : string) (img : image)
  (w : world) :
  can_makedirs E (fs w) out = true ->
  fs w !! src = Some (File bytes) ->
  read_refused E src = None ->
  decode C bytes = Picture img ->
  0 < width img < 2 ^ 31 -> 0 < height img < 2 ^ 31 ->
  forallb (fun S => can_write E (fs w) (output_path out S)) SIZES = true ->
  forallb (fun S => printable E (confirmation out S)) SIZES = true ->
  (exists w',
      generate_icons F C E src out w = (Ok tt, w') /\
      forall S, In S SIZES ->
                fs w' !! output_path out S
                = Some (File (icon_bytes F C img S))) \/
  (generate_icons F C E src out w
   = (Raise (PyErr "ValueError" "height and width must be > 0"),
      (makedirs E out w).2) /\
   dirs_added (fs w) (fs (makedirs E out w).2)).
Proof.
  intros Hcan Hsrc Hread Hdec Hw Hh Hfree Hcon.
  destruct (makedirs_ok E out w Hcan) as [Hmk Hdir].
  destruct (makedirs_keeps E out w) as [Hkeep _].
  destruct (makedirs_dirs E out w) as [Hdirs _].
  pose proof (can_write_after_makedirs out w SIZES Hfree) as Hfree1.
  rewrite generate_icons_eq, Hsrc.
  destruct (makedirs E out w) as [r1 w1]. cbn [fst snd] in *. subst r1.
  unfold image_open. rewrite (Hkeep src _ Hsrc), Hread, Hdec.
  destruct (all_sizes_or_not_the_first F img Hw Hh) as [Hren | Hfail].
  - left.
    rewrite (icons_loop_ok F C E img out SIZES w1 Hren Hfree1 Hcon).
    rewrite (printable_all_done E out 16)
      by (rewrite forallb_forall in Hcon; apply Hcon; cbn; auto).
    eexists. split; [reflexivity|]. cbn [fs].
    intros S HS. apply write_icons_in; [|exact HS].
    intros S' HS' Ep. apply (output_path_inj out); assumption.
  - right. unfold SIZES. rewrite icons_loop_step, Hfail. auto.
Qed.

(** ** The command line *)

(** X17: only the first two arguments count: the name of the script and
    every argument after the output directory make no difference, and
    without an output directory the run is the one into [icons]. *)
Theorem surplus_arguments_are_ignored (prog prog' src out : string)
  (rest : list string) (w : world) :
  run F C E (prog :: src :: out :: rest) w = run F C E [prog'; src; out] w /\
  run F C E [prog; src] w = run F C E [prog'; src; "icons"] w /\
  run F C E [prog; src; out] w
  = (exit_status (generate_icons F C E src out w).1,
     (generate_icons F C E src out w).2).
Proof.
  assert (H2 : forall n, (Z.of_nat (S (S n)) <? 2) = false)
    by (intros n; apply Z.ltb_ge; lia).
  assert (H3 : forall n, (2 <? Z.of_nat (S (S (S n)))) = true)
    by (intros n; apply Z.ltb_lt; lia).
  unfold run, main. cbn [length]. rewrite !H2, !H3.
  change (2 <? Z.of_nat 2) with false. cbn [nth].
  destruct (generate_icons F C E src out w) as [r1 w1].
  destruct (generate_icons F C E src "icons" w) as [r2 w2].
  auto.
Qed.

End RunProperties.


(** * The further properties at concrete inputs *)

Section FurtherInstances.

Import Sample Cases.

(** X1 at a 100 by 50 source and target size 64. *)
Lemma scaled_size_keeps_aspect_ratio_witness :
  exists nw nh,
    scaled_size 100 50 64 = Ok (nw, nh) /\
    64 * 100 / Z.max 100 50 - 1 <= nw <= 64 * 100 / Z.max 100 50 /\
    64 * 50 / Z.max 100 50 - 1 <= nh <= 64 * 50 / Z.max 100 50.
Proof.
  apply (scaled_size_keeps_aspect_ratio 100 50 64); lia.
Defined.

(** X2 at a 100 by 50 source and target size 64. *)
Lemma longer_side_nearly_fills_witness :
  exists nw nh,
    scaled_size 100 50 64 = Ok (nw, nh) /\
    (50 <= 100 -> 64 - 1 <= nw <= 64) /\
    (100 <= 50 -> 64 - 1 <= nh <= 64) /\
    (100 = 50 -> nw = nh).
Proof.
  apply (longer_side_nearly_fills 100 50 64); lia.
Defined.

(** X3 at a 100 by 50 source and target size 64. *)
Lemma moderate_aspect_ratio_succeeds_witness :
  exists r,
    resize_with_padding nearest (solid 100 50) 64 = Ok r /\
    width r = 64 /\ height r = 64.
Proof.
  apply (moderate_aspect_ratio_succeeds nearest (solid 100 50) 64);
    cbn; lia.
Defined.

(** X4 at a 100 by 1 source and target size 16. *)
Lemma extreme_aspect_ratio_raises_witness :
  resize_with_padding nearest (solid 100 1) 16
  = Raise (PyErr "ValueError" "height and width must be > 0").
Proof.
  apply (extreme_aspect_ratio_raises nearest (solid 100 1) 16); cbn; lia.
Defined.

(** X5 at a 100 by 50 source and target size 64. *)
Lemma content_inside_canvas_witness :
  exists nw nh,
    scaled_size 100 50 64 = Ok (nw, nh) /\
    0 <= offset 64 nw /\ offset 64 nw + nw <= 64 /\
    0 <= offset 64 nh /\ offset 64 nh + nh <= 64 /\
    forall x y,
      in_box (offset 64 nw) (offset 64 nh) nw nh x y = true ->
      0 <= x < 64 /\ 0 <= y < 64.
Proof.
  apply (content_inside_canvas 100 50 64); lia.
Defined.

(** X6 at a source of width 0. *)
Lemma zero_dimension_raises_witness :
  resize_with_padding nearest (solid 0 5) 16
  = Raise (PyErr "ZeroDivisionError" "division by zero").
Proof.
  apply (zero_dimension_raises nearest (solid 0 5) 16).
  left. reflexivity.
Defined.

(** X15 at a 100 by 50 source, for the last size. *)
Lemma first_size_decides_witness :
  exists r, resize_with_padding nearest (solid 100 50) 256 = Ok r.
Proof.
  apply (first_size_decides nearest (solid 100 50)).
  - cbn. lia.
  - cbn. lia.
  - vm_compute. reflexivity.
  - cbn. auto 10.
Defined.

(** X7 at a command line that only holds the script's name. *)
Lemma too_few_arguments_prints_usage_witness :
  run nearest toy posix ["generate-icons.py"] fresh
  = (1, World (fs fresh) (stdout fresh ++ [usage])).
Proof.
  apply (too_few_arguments_prints_usage nearest toy posix
           ["generate-icons.py"] fresh).
  cbn. lia.
Defined.


(** X12 on a file system whose source is an image cut short: the file
    is opened, and the error comes when the first icon is rendered. *)
Lemma corrupt_source_leaves_directory_witness :
  (exists cls msg,
      generate_icons nearest toy posix "logo.png" "icons" truncated
      = (Raise (PyErr cls msg), (makedirs posix "icons" truncated).2)) /\
  exit_status
    (generate_icons nearest toy posix "logo.png" "icons" truncated).1 = 1 /\
  fs (makedirs posix "icons" truncated).2 !! "icons" = Some Dir /\
  dirs_added (fs truncated) (fs (makedirs posix "icons" truncated).2) /\
  stdout (makedirs posix "icons" truncated).2 = stdout truncated.
Proof.
  apply (corrupt_source_leaves_directory nearest toy posix "logo.png" "icons"
           "100x50 cut short" truncated).
  - vm_compute. reflexivity.
  - vm_compute. reflexivity.
  - intros img. vm_compute. discriminate.
Defined.

(** X13 on a file system with a file in the place of the directory. *)
Lemma unusable_output_directory_aborts_witness :
  (exists cls msg,
      generate_icons nearest toy posix "logo.png" "icons" occupied
      = (Raise (PyErr cls msg), (makedirs posix "icons" occupied).2)) /\
  exit_status
    (generate_icons nearest toy posix "logo.png" "icons" occupied).1 = 1 /\
  dirs_added (fs occupied)
    (fs (generate_icons nearest toy posix "logo.png" "icons" occupied).2) /\
  stdout (generate_icons nearest toy posix "logo.png" "icons" occupied).2
  = stdout occupied.
Proof.
  apply (unusable_output_directory_aborts nearest toy posix "logo.png" "icons"
           occupied).
  - vm_compute. eauto.
  - vm_compute. reflexivity.
Defined.


(** X16 on a file system whose source is a sliver of 100 by 1. *)
Lemma run_is_all_or_nothing_witness :
  (exists w',
      generate_icons nearest toy posix "logo.png" "icons" sliver = (Ok tt, w') /\
      forall S, In S SIZES ->
                fs w' !! output_path "icons" S
                = Some (File (icon_bytes nearest toy (solid 100 1) S))) \/
  (generate_icons nearest toy posix "logo.png" "icons" sliver
   = (Raise (PyErr "ValueError" "height and width must be > 0"),
      (makedirs posix "icons" sliver).2) /\
   dirs_added (fs sliver) (fs (makedirs posix "icons" sliver).2)).
Proof.
  apply (run_is_all_or_nothing nearest toy posix "logo.png" "icons" "100x1"
           (solid 100 1) sliver).
  - vm_compute. reflexivity.
  - vm_compute. reflexivity.
  - vm_compute. reflexivity.
  - vm_compute. reflexivity.
  - cbn. lia.
  - cbn. lia.
  - vm_compute. reflexivity.
  - vm_compute. reflexivity.
Defined.

(** X18 at a 100 by 50 source and target size 64. *)
Lemma paste_scales_by_alpha_witness :
  exists r,
    resize_with_padding nearest (solid 100 50) 64 = Ok r /\
    exists nw nh resized,
      scaled_size 100 50 64 = Ok (nw, nh) /\
      resize nearest (convert nearest (solid 100 50) "RGBA") (nw, nh)
      = Ok resized /\
      forall x y,
        in_box (offset 64 nw) (offset 64 nh) nw nh x y = true ->
        let p := getpixel resized (x - offset 64 nw) (y - offset 64 nh) in
        let q := getpixel r x y in
        0 <= red p <= 255 -> 0 <= green p <= 255 -> 0 <= blue p <= 255 ->
        0 <= alpha p <= 255 ->
        (- 127 <= 255 * red q - red p * alpha p <= 127 /\
         - 127 <= 255 * green q - green p * alpha p <= 127 /\
         - 127 <= 255 * blue q - blue p * alpha p <= 127 /\
         - 127 <= 255 * alpha q - alpha p * alpha p <= 127) /\
        (0 <= red q <= red p /\ 0 <= green q <= green p /\
         0 <= blue q <= blue p /\ 0 <= alpha q <= alpha p) /\
        (alpha p = 255 -> q = p) /\
        (alpha p = 0 -> q = transparent).
Proof.
  destruct (resize_with_padding nearest (solid 100 50) 64) as [r | e] eqn:E.
  - exists r. split; [reflexivity|].
    exact (paste_scales_by_alpha nearest (solid 100 50) r 64 E).
  - vm_compute in E. discriminate.
Defined.

End FurtherInstances.
